(** * MultiMountains: a chained mountain-car environment

    A shallow embedding of [multi_mountains/module.py] (class
    [MultiMountainsEnv]) and the properties of its terrain builder, its
    reward and its step/termination state machine.

    Python floats are read as real numbers ([R]): every arithmetic
    operation of the source is the exact operation on [R], [np.clip] is
    [min (max a lo) hi], comparisons are the order of [R].  Python integers
    (the action, the step counter, the rewards) are [Z].  Where an integer
    meets a float Python converts it first, and refuses an integer beyond
    the double range ([OverflowError]): [float_of_int] is that conversion,
    [step] reads the push of an action that converts, and [step_int] is
    [step] with the refusal.  The angles are taken as the floats they are
    converted to.  The interpolant [scipy.interpolate.CubicSpline] is not
    part of the repository: it is a parameter of the constructor. *)

From Stdlib Require Import Reals List ZArith Lra Lia Bool Sorted.
Import ListNotations.
Open Scope R_scope.

(** ** Exceptions *)

Inductive exn : Type :=
| IndexError      (* subscript out of range, or too many indices *)
| ValueError      (* reduction of an empty array *)
| AttributeError  (* attribute read before it was ever assigned *)
| OverflowError.  (* int too large to convert to float *)

Inductive result (A : Type) : Type :=
| Ok (a : A)
| Raise (e : exn).
Arguments Ok {A} a.
Arguments Raise {A} e.

Definition bind {A B : Type} (m : result A) (k : A -> result B) : result B :=
  match m with
  | Ok a => k a
  | Raise e => Raise e
  end.

Notation "x <- m ;; k" := (bind m (fun x => k))
  (at level 61, m at next level, right associativity).
Notation "' pat <- m ;; k" := (bind m (fun x => match x with pat => k end))
  (at level 61, pat pattern, m at next level, right associativity).

(** ** The numpy operations the class uses *)

Definition Rltb (a b : R) : bool := if Rlt_dec a b then true else false.
Definition Rleb (a b : R) : bool := if Rle_dec a b then true else false.

(** [np.clip(a, lo, hi)] is [minimum(maximum(a, lo), hi)]. *)
Definition np_clip (a lo hi : R) : R := Rmin (Rmax a lo) hi.

(** [a.min()] and [a.max()]: a reduction, which raises on an empty array. *)
Definition np_min (a : list R) : result R :=
  match a with
  | [] => Raise ValueError
  | a0 :: rest => Ok (fold_left Rmin rest a0)
  end.

Definition np_max (a : list R) : result R :=
  match a with
  | [] => Raise ValueError
  | a0 :: rest => Ok (fold_left Rmax rest a0)
  end.

(** The conversion of a Python int that meets a float in a product: it is
    refused when the int rounds beyond the largest double, that is from
    [2^1024 - 2^970] on in absolute value. *)
Definition fits_double (n : Z) : bool :=
  (Z.abs n <? 2 ^ 1024 - 2 ^ 970)%Z.

Definition float_of_int (n : Z) : result R :=
  if fits_double n then Ok (IZR n) else Raise OverflowError.

(** [a[i]] for a non-negative index. *)
Definition getitem {A : Type} (a : list A) (i : nat) : result A :=
  match nth_error a i with
  | Some v => Ok v
  | None => Raise IndexError
  end.

(** [a[-1]]. *)
Definition getlast {A : Type} (a : list A) : result A :=
  match a with
  | [] => Raise IndexError
  | _ => getitem a (length a - 1)
  end.

(** [a[::2]]: the elements at the even indices. *)
Fixpoint stride2 {A : Type} (a : list A) : list A :=
  match a with
  | [] => []
  | a0 :: rest =>
      a0 :: match rest with
            | [] => []
            | _ :: rest' => stride2 rest'
            end
  end.

(** [a[1:]]. *)
Definition from1 {A : Type} (a : list A) : list A := tl a.

(** [np.linspace(start, stop, num)] for [num > 1]: [start + i * step] with
    [step = (stop - start) / (num - 1)], the last sample being [stop]. *)
Definition linspace (start stop : R) (num : nat) : list R :=
  map (fun i => if Nat.eqb i (num - 1) then stop
                else start + INR i * ((stop - start) / INR (num - 1)))
      (seq 0 num).

(** [np.argmin(a)]: the first index of the least element. *)
Fixpoint argmin_from (best : nat) (bestv : R) (i : nat) (a : list R) : nat :=
  match a with
  | [] => best
  | v :: rest =>
      if Rltb v bestv then argmin_from i v (S i) rest
      else argmin_from best bestv (S i) rest
  end.

Definition np_argmin (a : list R) : result nat :=
  match a with
  | [] => Raise ValueError
  | v :: rest => Ok (argmin_from 0%nat v 1%nat rest)
  end.

(** ** Terrain geometry *)

(** A control point [(x, y)]. *)
Abbreviation point := (R * R)%type (only parsing).

Definition h (x : R) : R := 0.45 * sin (3 * x) + 0.55.

(** [a] is the angle as a float (an int angle is converted when [2 * a]
    meets [np.pi]). *)
Definition calc_height (a : R) : R :=
  let b_h := h (- PI / 6) in
  let g_h := h 0.5 in
  let angle := atan ((g_h - b_h) / 1.1) + 2 * a * PI / 360 in
  b_h + tan angle * 1.1.

(** The three local control points of one hill, in order. *)
Definition get_env_points (angle : R) : list point :=
  let x1 := -1.2 in
  let x2 := - PI / 6 in
  [ (x1, h x1); (x2, h x2); (0.5, calc_height angle) ].

(** [enumerate]. *)
Fixpoint enumerate_from {A : Type} (i : nat) (l : list A) : list (nat * A) :=
  match l with
  | [] => []
  | a :: rest => (i, a) :: enumerate_from (S i) rest
  end.

Definition enumerate {A : Type} (l : list A) : list (nat * A) :=
  enumerate_from 0 l.

(** Python subscript [a[i]] for a list in range: a negative index counts
    from the end. *)
Definition subscript (a : list point) (i : Z) : point :=
  if (i <? 0)%Z then nth (Z.to_nat (Z.of_nat (length a) + i)) a (0, 0)
  else nth (Z.to_nat i) a (0, 0).

(** One iteration of the inner loop [for j, (x, y) in enumerate(pts)].
    [idx] is [len(points) - 1] taken before the segment's points are
    appended; [points[idx]] is only evaluated for [i > 0], where [points]
    already holds the first segment, so the subscript is in range (see
    [idx_in_range]). *)
Definition inner_body (i : nat) (pts : list point) (idx : Z)
    (points : list point) (jp : nat * point) : list point :=
  let '(j, (x, y)) := jp in
  if Nat.eqb i 0 then points ++ [(x, y)]
  else if Nat.eqb j 0 then points
  else
    let off_x := fst (subscript points idx) - fst (subscript pts 0) in
    let off_y := snd (subscript points idx) - snd (subscript pts 0) in
    points ++ [(x + off_x, y + off_y)].

(** One iteration of the outer loop [for i, angle in enumerate(angles)]. *)
Definition outer_body (points : list point) (ia : nat * R) : list point :=
  let '(i, angle) := ia in
  let pts := get_env_points angle in
  let idx := (Z.of_nat (length points) - 1)%Z in
  fold_left (inner_body i pts idx) (enumerate pts) points.

Definition calc_points (angles : list R) : list point :=
  fold_left outer_body (enumerate angles) [].

(** ** The environment object *)

Record MultiMountainsEnv : Type := mkEnv {
  g : R;
  F : R;
  delta : R;
  angles : list R;
  points : list point;
  x : list R;
  x_peaks : list R;
  y : list R;
  y_peaks : list R;
  f : R -> R;
  x_curve : list R;
  y_curve : list R;
  max_speed : R;
  low : point;
  high : point;
  counter : Z;
  max_step : Z;
  state : option (R * R)   (* [None] until [reset] assigns it *)
}.

(** Assignment to the two attributes that [reset] and [step] mutate. *)
Definition set_counter (self : MultiMountainsEnv) (c : Z) : MultiMountainsEnv :=
  mkEnv (g self) (F self) (delta self) (angles self) (points self) (x self)
        (x_peaks self) (y self) (y_peaks self) (f self) (x_curve self)
        (y_curve self) (max_speed self) (low self) (high self)
        c (max_step self) (state self).

Definition set_state (self : MultiMountainsEnv) (s : R * R) : MultiMountainsEnv :=
  mkEnv (g self) (F self) (delta self) (angles self) (points self) (x self)
        (x_peaks self) (y self) (y_peaks self) (f self) (x_curve self)
        (y_curve self) (max_speed self) (low self) (high self)
        (counter self) (max_step self) (Some s).

Definition get_state (self : MultiMountainsEnv) : result (R * R) :=
  match state self with
  | Some s => Ok s
  | None => Raise AttributeError
  end.

(** The type of the interpolant constructor
    [CubicSpline(x, y, bc_type="clamped")]: from the abscissas and the
    ordinates to the fitted curve. *)
Definition spline : Type := list R -> list R -> R -> R.

(** [__init__].  [np.array(points)[:, 0]] needs a two-dimensional array:
    with no angle the array is empty and one-dimensional and the subscript
    raises. *)
Definition init (CubicSpline : spline) (angles : list R) (max_step : Z)
    (gravity force delta : R) : result MultiMountainsEnv :=
  let points := calc_points angles in
  match points with
  | [] => Raise IndexError
  | _ :: _ =>
      let x := map fst points in
      let x_peaks := from1 (stride2 x) in
      let y := map snd points in
      let y_peaks := from1 (stride2 y) in
      let f := CubicSpline x y in
      x_lo <- np_min x ;;
      x_hi <- np_max x ;;
      let x_curve := linspace x_lo x_hi 1024 in
      let y_curve := map f x_curve in
      let max_speed := 0.07 in
      Ok (mkEnv gravity force delta angles points x x_peaks y y_peaks f
                x_curve y_curve max_speed
                (x_lo, - max_speed) (x_hi, max_speed)
                0%Z max_step None)
  end.

(** The constructor with its default arguments. *)
Definition init_default (CubicSpline : spline) (angles : list R)
  : result MultiMountainsEnv :=
  init CubicSpline angles 500%Z 0.0025 1e-3 1e-12.

Definition df (self : MultiMountainsEnv) (x0 : R) : R :=
  let d := delta self in
  (f self (x0 + d) - f self x0) / d.

Definition reset (self : MultiMountainsEnv)
  : result ((R * R) * MultiMountainsEnv) :=
  let self := set_counter self 0%Z in
  x0 <- getitem (x self) 0 ;;
  x2 <- getitem (x self) 2 ;;
  let xs := linspace x0 x2 1024 in
  idx <- np_argmin (map (f self) xs) ;;
  xi <- getitem xs idx ;;
  let self := set_state self (xi, 0) in
  Ok ((xi, 0), self).

Definition reward (self : MultiMountainsEnv) (p x0 : R) : Z :=
  if existsb (fun pk => Rltb pk x0 && Rltb p pk) (x_peaks self) then 5%Z
  else if existsb (fun pk => Rltb x0 pk && Rltb pk p) (x_peaks self) then (-5)%Z
  else (-1)%Z.

Definition is_goal_reached (self : MultiMountainsEnv) : result bool :=
  s <- get_state self ;;
  xl <- getlast (x self) ;;
  Ok (Rleb xl (fst s)).

Definition done (self : MultiMountainsEnv) : result bool :=
  if Z.eqb (counter self) (max_step self) then Ok true
  else is_goal_reached self.

(** [step] returns [(observation, reward, done, info)] and the mutated
    object; [info] is the empty dict.  [IZR (action - 1)] is the push of an
    action whose [action - 1] converts to a float; see [step_int] for the
    others. *)
Definition step (self : MultiMountainsEnv) (action : Z)
  : result ((R * R) * Z * bool * unit * MultiMountainsEnv) :=
  '(x0, v0) <- get_state self ;;
  let p := x0 in
  let v := v0 + IZR (action - 1) * F self - df self x0 * g self in
  let v := np_clip v (- max_speed self) (max_speed self) in
  let x1 := x0 + v in
  x_lo <- np_min (x self) ;;
  x_hi <- np_max (x self) ;;
  let x1 := np_clip x1 x_lo x_hi in
  x_lo' <- np_min (x self) ;;
  let v := if Rleb x1 x_lo' && Rltb v 0 then 1e-2 else v in
  let self := set_state self (x1, v) in
  let self := set_counter self (counter self + 1)%Z in
  let r := reward self p x1 in
  d <- done self ;;
  Ok ((x1, v), r, d, tt, self).

(** [step] on a Python int of any size: after the state is read, the
    product [(action - 1) * self.F] converts [action - 1] to a float, and
    raises for an int beyond the double range. *)
Definition step_int (self : MultiMountainsEnv) (action : Z)
  : result ((R * R) * Z * bool * unit * MultiMountainsEnv) :=
  _ <- get_state self ;;
  _ <- float_of_int (action - 1) ;;
  step self action.

(** [get_user_action], with the two key states as arguments. *)
Definition get_user_action (pressed_a pressed_b : bool) : Z :=
  if pressed_a then 0%Z else if pressed_b then 2%Z else 1%Z.

(** ** Derived notions used in the statements *)

(** The offset a later segment is shifted by. *)
Definition offset (points : list point) (angle : R) : R * R :=
  (fst (last points (0, 0)) - fst (subscript (get_env_points angle) 0),
   snd (last points (0, 0)) - snd (subscript (get_env_points angle) 0)).

Definition shift (off : R * R) (p : point) : point :=
  (fst p + fst off, snd p + snd off).

(** The object [self0] with other values in its two mutable attributes. *)
Definition with_dyn (self0 : MultiMountainsEnv) (c : Z) (st : option (R * R))
  : MultiMountainsEnv :=
  mkEnv (g self0) (F self0) (delta self0) (angles self0) (points self0)
        (x self0) (x_peaks self0) (y self0) (y_peaks self0) (f self0)
        (x_curve self0) (y_curve self0) (max_speed self0) (low self0)
        (high self0) c (max_step self0) st.

(** [self] came out of [__init__]; its counter and its state may have been
    assigned since. *)
Definition constructed (self : MultiMountainsEnv) : Prop :=
  exists CubicSpline angles ms gr fo de self0,
    init CubicSpline angles ms gr fo de = Ok self0 /\
    self = with_dyn self0 (counter self) (state self).

(** The velocity after the force and gravity update and the clamp. *)
Definition clamped_velocity (self : MultiMountainsEnv) (x0 v0 : R)
    (action : Z) : R :=
  np_clip (v0 + IZR (action - 1) * F self
           - (f self (x0 + delta self) - f self x0) / delta self * g self)
          (- max_speed self) (max_speed self).

(** The states a caller reaches: [reset], then [step] with actions 0, 1
    or 2. *)
Inductive reachable (self0 : MultiMountainsEnv) : MultiMountainsEnv -> Prop :=
| reach_reset : forall obs self1,
    reset self0 = Ok (obs, self1) -> reachable self0 self1
| reach_step : forall self action obs r d self',
    reachable self0 self ->
    (0 <= action <= 2)%Z ->
    step self action = Ok (obs, r, d, tt, self') ->
    reachable self0 self'.

(** A stand-in for the interpolant in the examples: the level curve at the
    height of the first control point.  The clamped spline has slope zero
    at both ends of its domain, so at the left wall its forward difference
    vanishes as it does for this curve. *)
Definition level_curve : spline := fun _ ys _ => hd 0 ys.



(** [get_radius]: the radius of the disc that [render] draws. *)
Definition get_radius (self : MultiMountainsEnv) : result R :=
  let y0 := y_curve self in
  y_hi <- np_max y0 ;;
  y_lo <- np_min y0 ;;
  Ok (Rabs (y_hi - y_lo) / 25).

(** A caller's loop [for a in actions: env.step(a)], keeping the observation,
    the reward and the flag of each call. *)
Fixpoint run (self : MultiMountainsEnv) (actions : list Z)
  : result (list ((R * R) * Z * bool) * MultiMountainsEnv) :=
  match actions with
  | [] => Ok ([], self)
  | a :: rest =>
      '(obs, r, d, _, self1) <- step self a ;;
      '(outs, self2) <- run self1 rest ;;
      Ok ((obs, r, d) :: outs, self2)
  end.

(** ** Lemmas on the terrain builder *)

Section CalcPoints.

Lemma enumerate_from_snoc {A : Type} (l : list A) (a : A) (i : nat) :
  enumerate_from i (l ++ [a]) = enumerate_from i l ++ [((i + length l)%nat, a)].
Proof.
  revert i; induction l as [|b l IH]; intros i; simpl.
  - now rewrite Nat.add_0_r.
  - rewrite IH. now rewrite Nat.add_succ_r.
Qed.

(** The outer loop, one segment at a time. *)
Lemma calc_points_snoc (angles : list R) (a : R) :
  calc_points (angles ++ [a]) =
  outer_body (calc_points angles) (length angles, a).
Proof.
  unfold calc_points, enumerate.
  rewrite enumerate_from_snoc, fold_left_app. reflexivity.
Qed.

(** The first segment is taken as it is. *)
Lemma outer_body_first (points : list point) (a : R) :
  outer_body points (0%nat, a) = points ++ get_env_points a.
Proof.
  unfold outer_body, get_env_points, enumerate. simpl.
  now rewrite <- !app_assoc.
Qed.

Lemma subscript_last (points : list point) :
  points <> [] ->
  subscript points (Z.of_nat (length points) - 1) = last points (0, 0).
Proof.
  intros Hne. unfold subscript.
  destruct points as [|p0 rest]; [congruence|].
  replace (Z.of_nat (length (p0 :: rest)) - 1 <? 0)%Z with false.
  - replace (Z.to_nat (Z.of_nat (length (p0 :: rest)) - 1))
      with (length (p0 :: rest) - 1)%nat by lia.
    generalize (p0 :: rest). clear.
    induction l as [|q l IH]; [reflexivity|].
    destruct l as [|q' l]; [reflexivity|].
    simpl in *. rewrite Nat.sub_0_r in IH. exact IH.
  - symmetry. apply Z.ltb_ge. simpl length. lia.
Qed.

(** At a later segment, [points[idx]] is in range: it is the last point
    accepted before the segment, also after the segment's own first
    append. *)
Lemma idx_in_range (points : list point) (q : point) :
  points <> [] ->
  (0 <= Z.of_nat (length points) - 1 < Z.of_nat (length points))%Z /\
  subscript (points ++ [q]) (Z.of_nat (length points) - 1)
  = last points (0, 0).
Proof.
  intros Hne. split.
  - destruct points; [congruence|]. simpl length. lia.
  - rewrite <- (subscript_last points Hne). unfold subscript.
    destruct (Z.of_nat (length points) - 1 <? 0)%Z eqn:E.
    + apply Z.ltb_lt in E. destruct points; [congruence|]. simpl length in E. lia.
    + apply app_nth1. destruct points; [congruence|]. simpl length. lia.
Qed.

(** A later segment drops its first point and appends the two others,
    shifted. *)
Lemma outer_body_next (points : list point) (i : nat) (a : R) :
  i <> 0%nat -> points <> [] ->
  outer_body points (i, a) =
  points ++ map (shift (offset points a)) (tl (get_env_points a)).
Proof.
  intros Hi Hne. unfold outer_body.
  apply Nat.eqb_neq in Hi.
  unfold enumerate, inner_body. cbn [get_env_points enumerate_from fold_left].
  rewrite Hi. cbn [Nat.eqb].
  rewrite (proj2 (idx_in_range points _ Hne)).
  rewrite (subscript_last points Hne).
  rewrite <- app_assoc. reflexivity.
Qed.

Lemma calc_points_single (a : R) : calc_points [a] = get_env_points a.
Proof. apply (outer_body_first [] a). Qed.

Lemma calc_points_length (angles : list R) :
  angles <> [] ->
  length (calc_points angles) = (2 * length angles + 1)%nat.
Proof.
  induction angles as [|a angles IH] using rev_ind; [congruence|].
  intros _. rewrite calc_points_snoc.
  destruct angles as [|b angles].
  - reflexivity.
  - assert (Hlen : length (calc_points (b :: angles))
                   = (2 * length (b :: angles) + 1)%nat) by (apply IH; congruence).
    rewrite outer_body_next.
    + rewrite length_app, Hlen, length_app. simpl. lia.
    + simpl; congruence.
    + intros E. rewrite E in Hlen. simpl in Hlen. lia.
Qed.

Lemma calc_points_nonempty (angles : list R) :
  angles <> [] -> calc_points angles <> [].
Proof.
  intros Hne E. apply calc_points_length in Hne.
  rewrite E in Hne. simpl in Hne. lia.
Qed.

Lemma calc_points_extend (angles : list R) (a : R) :
  angles <> [] ->
  calc_points (angles ++ [a]) =
  calc_points angles
    ++ map (shift (offset (calc_points angles) a)) (tl (get_env_points a)).
Proof.
  intros Hne. rewrite calc_points_snoc.
  apply outer_body_next.
  - destruct angles; [congruence | simpl; congruence].
  - now apply calc_points_nonempty.
Qed.

End CalcPoints.

(** ** Abscissas of the control points *)

Section Abscissas.

Lemma last_map_fst (l : list point) :
  last (map fst l) 0 = fst (last l (0, 0)).
Proof.
  induction l as [|p l IH]; [reflexivity|].
  destruct l as [|q l]; [reflexivity|]. exact IH.
Qed.

(** A later segment adds two abscissas, which depend on the last abscissa
    so far and on nothing else. *)
Lemma abscissas_extend (angles : list R) (a : R) :
  angles <> [] ->
  map fst (calc_points (angles ++ [a])) =
  map fst (calc_points angles)
    ++ [ - PI / 6 + (last (map fst (calc_points angles)) 0 - -1.2);
         0.5 + (last (map fst (calc_points angles)) 0 - -1.2) ].
Proof.
  intros Hne. rewrite (calc_points_extend angles a Hne), map_app.
  rewrite last_map_fst. reflexivity.
Qed.

Lemma PI_over_6_bounds : -1.2 < - PI / 6 < 0.5.
Proof. pose proof PI_4. pose proof PI_RGT_0. lra. Qed.

Lemma sorted_all_le_last (l : list R) :
  StronglySorted Rlt l -> Forall (fun z => z <= last l 0) l.
Proof.
  induction 1 as [|z l Hs IH Hall]; [constructor|].
  destruct l as [|z' l].
  - constructor; [simpl; lra | constructor].
  - constructor.
    + change (last (z :: z' :: l) 0) with (last (z' :: l) 0).
      rewrite Forall_forall in IH, Hall.
      assert (Hin : In (last (z' :: l) 0) (z' :: l)).
      { clear. generalize z'. induction l as [|w l IHl]; intros u.
        - left; reflexivity.
        - right. apply IHl. }
      specialize (Hall _ Hin). lra.
    + exact IH.
Qed.

Lemma sorted_snoc (l : list R) (u : R) :
  StronglySorted Rlt l -> (l = [] \/ last l 0 < u) ->
  StronglySorted Rlt (l ++ [u]).
Proof.
  intros Hs Hu. pose proof (sorted_all_le_last l Hs) as Hle.
  induction Hs as [|z l Hs IH Hall]; simpl.
  - repeat constructor.
  - destruct Hu as [Hu|Hu]; [discriminate|].
    assert (Hzu : z < u).
    { inversion Hle; subst. lra. }
    constructor.
    + apply IH.
      * destruct l as [|z' l]; [now left | right; exact Hu].
      * now apply sorted_all_le_last.
    + apply Forall_app. split; [exact Hall | repeat constructor; exact Hzu].
Qed.

Lemma calc_points_sorted (angles : list R) :
  StronglySorted Rlt (map fst (calc_points angles)).
Proof.
  induction angles as [|a angles IH] using rev_ind; [constructor|].
  pose proof PI_over_6_bounds as HPI.
  destruct angles as [|b angles].
  - change ([] ++ [a]) with [a]. rewrite calc_points_single. simpl.
    repeat constructor; lra.
  - rewrite abscissas_extend by congruence.
    set (xs := map fst (calc_points (b :: angles))) in *.
    replace [- PI / 6 + (last xs 0 - -1.2); 0.5 + (last xs 0 - -1.2)]
      with ([- PI / 6 + (last xs 0 - -1.2)] ++ [0.5 + (last xs 0 - -1.2)])
      by reflexivity.
    rewrite app_assoc. apply sorted_snoc.
    + apply sorted_snoc; [exact IH | right; lra].
    + right. rewrite last_last. lra.
Qed.

Lemma abscissas_by_length (n : nat) (a1 a2 : list R) :
  length a1 = n -> length a2 = n ->
  map fst (calc_points a1) = map fst (calc_points a2).
Proof.
  revert a1 a2. induction n as [|n IH]; intros a1 a2 H1 H2.
  - apply length_zero_iff_nil in H1, H2. subst. reflexivity.
  - destruct (exists_last (l := a1)) as [l1 [u E1]];
      [intros E; subst; discriminate|].
    destruct (exists_last (l := a2)) as [l2 [w E2]];
      [intros E; subst; discriminate|].
    subst a1 a2. rewrite length_app in H1, H2. simpl in H1, H2.
    assert (Hl1 : length l1 = n) by lia.
    assert (Hl2 : length l2 = n) by lia.
    destruct n as [|n].
    + apply length_zero_iff_nil in Hl1, Hl2. subst. reflexivity.
    + rewrite !abscissas_extend
        by (intros E; subst; discriminate).
      now rewrite (IH l1 l2 Hl1 Hl2).
Qed.

End Abscissas.

(** ** Lemmas on the numpy operations *)

Section Numpy.

Lemma Rltb_true (a b : R) : Rltb a b = true <-> a < b.
Proof. unfold Rltb. destruct (Rlt_dec a b); split; intros; congruence || lra. Qed.

Lemma Rleb_true (a b : R) : Rleb a b = true <-> a <= b.
Proof. unfold Rleb. destruct (Rle_dec a b); split; intros; congruence || lra. Qed.

Lemma Rltb_false (a b : R) : Rltb a b = false <-> b <= a.
Proof. unfold Rltb. destruct (Rlt_dec a b); split; intros; congruence || lra. Qed.

Lemma Rleb_false (a b : R) : Rleb a b = false <-> b < a.
Proof. unfold Rleb. destruct (Rle_dec a b); split; intros; congruence || lra. Qed.

Lemma np_clip_bounds (a lo hi : R) :
  lo <= hi -> lo <= np_clip a lo hi <= hi.
Proof.
  intros H. unfold np_clip, Rmin, Rmax.
  destruct (Rle_dec a lo); destruct (Rle_dec _ hi); lra.
Qed.

Lemma np_clip_inside (a lo hi : R) :
  lo <= a <= hi -> np_clip a lo hi = a.
Proof.
  intros H. unfold np_clip, Rmin, Rmax.
  destruct (Rle_dec a lo); destruct (Rle_dec _ hi); lra.
Qed.

Lemma np_clip_below (a lo hi : R) :
  lo <= hi -> a <= lo -> np_clip a lo hi = lo.
Proof.
  intros H1 H2. unfold np_clip, Rmin, Rmax.
  destruct (Rle_dec a lo); destruct (Rle_dec _ hi); lra.
Qed.


Lemma fold_min_le (l : list R) (a : R) : fold_left Rmin l a <= a.
Proof.
  revert a; induction l as [|b l IH]; intros a; simpl; [lra|].
  specialize (IH (Rmin a b)). pose proof (Rmin_l a b). lra.
Qed.

Lemma fold_max_ge (l : list R) (a : R) : a <= fold_left Rmax l a.
Proof.
  revert a; induction l as [|b l IH]; intros a; simpl; [lra|].
  specialize (IH (Rmax a b)). pose proof (Rmax_l a b). lra.
Qed.

(** The least abscissa is at most the greatest one. *)
Lemma np_min_le_max (a : list R) (lo hi : R) :
  np_min a = Ok lo -> np_max a = Ok hi -> lo <= hi.
Proof.
  destruct a as [|a0 rest]; [discriminate|]. simpl.
  intros H1 H2. injection H1 as <-. injection H2 as <-.
  pose proof (fold_min_le rest a0). pose proof (fold_max_ge rest a0). lra.
Qed.

Lemma np_min_max_defined (a : list R) :
  a <> [] -> exists lo hi, np_min a = Ok lo /\ np_max a = Ok hi.
Proof.
  destruct a as [|a0 rest]; [congruence|]. intros _.
  eexists; eexists; split; reflexivity.
Qed.

(** On a strictly increasing array the least element is the first one and
    the greatest the last one. *)
Lemma np_min_sorted (a0 : R) (rest : list R) :
  StronglySorted Rlt (a0 :: rest) -> np_min (a0 :: rest) = Ok a0.
Proof.
  intros Hs. simpl. f_equal.
  apply StronglySorted_inv in Hs. destruct Hs as [_ Hall].
  induction rest as [|b rest IH]; [reflexivity|].
  simpl. inversion Hall; subst.
  rewrite Rmin_left by lra. now apply IH.
Qed.

Lemma np_max_sorted (a : list R) :
  StronglySorted Rlt a -> a <> [] -> np_max a = Ok (last a 0).
Proof.
  intros Hs Hne. destruct a as [|a0 rest]; [congruence|]. clear Hne.
  simpl np_max. f_equal. revert a0 Hs.
  induction rest as [|b rest IH]; intros a0 Hs; [reflexivity|].
  apply StronglySorted_inv in Hs. destruct Hs as [Hs Hall].
  inversion Hall; subst.
  cbn [fold_left]. rewrite Rmax_right by lra.
  change (last (a0 :: b :: rest) 0) with (last (b :: rest) 0).
  now apply IH.
Qed.

Lemma getlast_last (a : list R) :
  a <> [] -> getlast a = Ok (last a 0).
Proof.
  intros Hne. unfold getlast, getitem.
  destruct a as [|a0 rest]; [congruence|].
  assert (H : nth_error (a0 :: rest) (length (a0 :: rest) - 1)
              = Some (last (a0 :: rest) 0)).
  { generalize (a0 :: rest) Hne. clear.
    induction l as [|b l IH]; [congruence|]. intros _.
    destruct l as [|c l]; [reflexivity|].
    change (last (b :: c :: l) 0) with (last (c :: l) 0).
    rewrite <- IH by congruence. simpl. now rewrite Nat.sub_0_r. }
  now rewrite H.
Qed.

Lemma length_stride2 {A : Type} (n : nat) (a : list A) :
  length a = (2 * n + 1)%nat -> length (stride2 a) = (n + 1)%nat.
Proof.
  revert a; induction n as [|n IH]; intros a Ha.
  - destruct a as [|a0 [|a1 a]]; simpl in Ha; try lia. reflexivity.
  - destruct a as [|a0 [|a1 a]]; simpl in Ha; try lia.
    cbn [stride2 length]. rewrite (IH a) by lia. lia.
Qed.

Lemma nth_stride2 {A : Type} (d : A) (k : nat) (a : list A) :
  nth k (stride2 a) d = nth (2 * k) a d.
Proof.
  revert a; induction k as [|k IH]; intros a.
  - destruct a; reflexivity.
  - destruct a as [|a0 [|a1 a]]; [reflexivity | destruct k; reflexivity |].
    replace (2 * S k)%nat with (S (S (2 * k))) by lia.
    cbn [stride2 nth]. apply IH.
Qed.

Lemma argmin_from_bound (a : list R) (best i : nat) (bestv : R) :
  (best < i)%nat -> (argmin_from best bestv i a < i + length a)%nat.
Proof.
  revert best i bestv; induction a as [|v a IH]; intros best i bestv Hb; simpl.
  - lia.
  - destruct (Rltb v bestv).
    + specialize (IH i (S i) v). lia.
    + specialize (IH best (S i) bestv). lia.
Qed.

Lemma length_linspace (start stop : R) (num : nat) :
  length (linspace start stop num) = num.
Proof. unfold linspace. now rewrite length_map, length_seq. Qed.

End Numpy.

Arguments linspace : simpl never.

(** ** Objects built by the constructor *)

Section Constructed.

Lemma init_ok (CubicSpline : spline) (angles : list R) (ms : Z) (gr fo de : R) :
  angles <> [] -> exists self0, init CubicSpline angles ms gr fo de = Ok self0.
Proof.
  intros Hne. unfold init.
  pose proof (calc_points_nonempty angles Hne) as Hp.
  destruct (calc_points angles) as [|p ps]; [congruence|].
  cbn [map np_min np_max bind]. eexists. reflexivity.
Qed.

Lemma init_fields (CubicSpline : spline) (angles : list R) (ms : Z)
    (gr fo de : R) (self0 : MultiMountainsEnv) :
  init CubicSpline angles ms gr fo de = Ok self0 ->
  angles <> [] /\
  x self0 = map fst (calc_points angles) /\
  x_peaks self0 = from1 (stride2 (x self0)) /\
  y self0 = map snd (calc_points angles) /\
  (f self0 = CubicSpline (x self0) (y self0) /\
   y_peaks self0 = from1 (stride2 (y self0))) /\
  max_speed self0 = 0.07 /\
  g self0 = gr /\ F self0 = fo /\ delta self0 = de /\
  max_step self0 = ms /\ counter self0 = 0%Z /\ state self0 = None.
Proof.
  unfold init. intros H.
  assert (Hne : angles <> []).
  { intros E. subst angles. discriminate H. }
  split; [exact Hne|].
  destruct (calc_points angles) as [|p ps]; [discriminate|].
  cbn [map np_min np_max bind] in H.
  set (xc := linspace _ _ _) in H. clearbody xc.
  apply (f_equal (fun r => match r with Ok a => a | Raise _ => self0 end)) in H.
  subst self0.
  cbn [x x_peaks y y_peaks f max_speed g F delta max_step counter state].
  repeat split; reflexivity.
Qed.

Lemma init_empty (CubicSpline : spline) (ms : Z) (gr fo de : R) :
  init CubicSpline [] ms gr fo de = Raise IndexError.
Proof. reflexivity. Qed.

(** What every constructed object satisfies. *)
Lemma constructed_terrain (self : MultiMountainsEnv) :
  constructed self ->
  exists angles,
    angles <> [] /\
    x self = map fst (calc_points angles) /\
    x_peaks self = from1 (stride2 (x self)) /\
    max_speed self = 0.07 /\
    StronglySorted Rlt (x self) /\
    length (x self) = (2 * length angles + 1)%nat.
Proof.
  intros (sp & angles & ms & gr & fo & de & self0 & Hinit & Hself).
  apply init_fields in Hinit.
  destruct Hinit as (Hne & Hx & Hpk & _ & _ & Hms & _).
  exists angles. rewrite Hself. cbn [with_dyn x x_peaks max_speed].
  rewrite Hpk, Hms, Hx.
  repeat split; try assumption.
  - apply calc_points_sorted.
  - rewrite length_map. now apply calc_points_length.
Qed.

Lemma constructed_x_nonempty (self : MultiMountainsEnv) :
  constructed self -> x self <> [].
Proof.
  intros Hc. destruct (constructed_terrain self Hc) as (angles & _ & _ & _ & _ & _ & Hlen).
  intros E. rewrite E in Hlen. simpl in Hlen. lia.
Qed.

(** The first control point is the first local point of the first hill. *)
Lemma calc_points_head (angles : list R) :
  angles <> [] -> exists rest, map fst (calc_points angles) = -1.2 :: rest.
Proof.
  induction angles as [|a l IH] using rev_ind; [congruence|]. intros _.
  destruct l as [|b l].
  - change ([] ++ [a]) with [a]. rewrite calc_points_single.
    eexists; reflexivity.
  - destruct IH as [rest E]; [congruence|].
    rewrite (calc_points_extend (b :: l) a) by congruence.
    eexists. rewrite map_app, E. reflexivity.
Qed.

(** [x.min()] is the first abscissa, [-1.2]; [x.max()] is the last
    abscissa, [x[-1]]. *)
Lemma constructed_extrema (self : MultiMountainsEnv) :
  constructed self ->
  np_min (x self) = Ok (-1.2) /\
  np_max (x self) = Ok (last (x self) 0) /\
  getlast (x self) = Ok (last (x self) 0) /\
  -1.2 < last (x self) 0.
Proof.
  intros Hc. pose proof (constructed_x_nonempty self Hc) as Hne.
  destruct (constructed_terrain self Hc)
    as (angles & Hang & Hx & _ & _ & Hs & Hlen).
  assert (Hhd : exists rest, x self = -1.2 :: rest)
    by (rewrite Hx; now apply calc_points_head).
  destruct Hhd as [rest Hhd].
  assert (Hmin : np_min (x self) = Ok (-1.2)).
  { rewrite Hhd. apply np_min_sorted. now rewrite <- Hhd. }
  assert (Hmax : np_max (x self) = Ok (last (x self) 0))
    by now apply np_max_sorted.
  repeat split; try assumption.
  - now apply getlast_last.
  - pose proof (sorted_all_le_last _ Hs) as Hall.
    rewrite Hhd in Hs. apply StronglySorted_inv in Hs.
    destruct Hs as [Hs Hlt].
    destruct rest as [|r rest].
    + rewrite Hhd in Hlen. destruct angles; [congruence|].
      cbn [length] in Hlen. lia.
    + rewrite Hhd. change (last (-1.2 :: r :: rest) 0) with (last (r :: rest) 0).
      inversion Hlt; subst.
      pose proof (sorted_all_le_last _ Hs) as Hall'.
      inversion Hall'; subst. lra.
Qed.

Lemma constructed_with_dyn (self : MultiMountainsEnv) (c : Z)
    (st : option (R * R)) :
  constructed self -> constructed (with_dyn self c st).
Proof.
  intros (sp & angles & ms & gr & fo & de & self0 & Hinit & Hself).
  exists sp, angles, ms, gr, fo, de, self0. split; [exact Hinit|].
  rewrite Hself. reflexivity.
Qed.

Lemma constructed_init (CubicSpline : spline) (angles : list R) (ms : Z)
    (gr fo de : R) (self0 : MultiMountainsEnv) :
  init CubicSpline angles ms gr fo de = Ok self0 -> constructed self0.
Proof.
  intros H. exists CubicSpline, angles, ms, gr, fo, de, self0.
  split; [exact H|]. destruct self0; reflexivity.
Qed.

Lemma constructed_set_state (self : MultiMountainsEnv) (s : R * R) :
  constructed self -> constructed (set_state self s).
Proof. apply (constructed_with_dyn self (counter self) (Some s)). Qed.

Lemma constructed_set_counter (self : MultiMountainsEnv) (c : Z) :
  constructed self -> constructed (set_counter self c).
Proof. apply (constructed_with_dyn self c (state self)). Qed.

End Constructed.

(** ** The step and reset operations *)

Section Dynamics.

Lemma done_spec (self : MultiMountainsEnv) (s : R * R) :
  state self = Some s -> x self <> [] ->
  done self = Ok (Z.eqb (counter self) (max_step self)
                  || Rleb (last (x self) 0) (fst s)).
Proof.
  intros Hs Hne. unfold done, is_goal_reached, get_state.
  rewrite Hs, (getlast_last _ Hne). cbn [bind].
  destruct (Z.eqb (counter self) (max_step self)); reflexivity.
Qed.

(** [step] written out, for a state that was assigned and a terrain with
    at least one abscissa. *)
Lemma step_spec (self : MultiMountainsEnv) (action : Z) (x0 v0 lo hi : R) :
  state self = Some (x0, v0) ->
  np_min (x self) = Ok lo -> np_max (x self) = Ok hi ->
  let v1 := clamped_velocity self x0 v0 action in
  let x1 := np_clip (x0 + v1) lo hi in
  let v2 := if Rleb x1 lo && Rltb v1 0 then 1e-2 else v1 in
  let self' := set_counter (set_state self (x1, v2)) (counter self + 1) in
  step self action =
  Ok ((x1, v2), reward self' x0 x1,
      Z.eqb (counter self + 1) (max_step self) || Rleb (last (x self) 0) x1,
      tt, self').
Proof.
  intros Hs Hlo Hhi v1 x1 v2 self'.
  assert (Hne : x self <> []) by (intros E; rewrite E in Hlo; discriminate).
  unfold step, get_state. rewrite Hs. cbn [bind].
  rewrite Hlo, Hhi. cbn [bind].
  fold (df self x0). unfold df.
  fold (clamped_velocity self x0 v0 action). fold v1. fold x1. fold v2.
  change (set_counter (set_state self (x1, v2))
            (counter (set_state self (x1, v2)) + 1)) with self'.
  rewrite (done_spec self' (x1, v2)); [reflexivity | reflexivity | exact Hne].
Qed.

Lemma step_before_reset (self : MultiMountainsEnv) (action : Z) :
  state self = None -> step self action = Raise AttributeError.
Proof. intros H. unfold step, get_state. now rewrite H. Qed.

(** [reset] succeeds on a terrain with three abscissas or more, leaves the
    terrain as it is and assigns a state with velocity 0. *)
Lemma reset_spec (self : MultiMountainsEnv) :
  (3 <= length (x self))%nat ->
  exists xi,
    reset self = Ok ((xi, 0), set_state (set_counter self 0) (xi, 0)).
Proof.
  intros Hlen. unfold reset.
  change (x (set_counter self 0)) with (x self).
  change (f (set_counter self 0)) with (f self).
  destruct (x self) as [|a0 [|a1 [|a2 rest]]]; simpl in Hlen; try lia.
  unfold getitem at 1 2. cbn [nth_error bind].
  set (xs := linspace a0 a2 1024).
  assert (Hxs : length xs = 1024%nat) by apply length_linspace.
  destruct (map (f self) xs) as [|v vs] eqn:Em.
  - apply (f_equal (@length R)) in Em. rewrite length_map, Hxs in Em.
    discriminate Em.
  - cbn [np_argmin bind].
    pose proof (argmin_from_bound vs 0 1 v Nat.lt_0_1) as Hb.
    assert (Hl : (argmin_from 0 v 1 vs < length xs)%nat).
    { apply (f_equal (@length R)) in Em. rewrite length_map in Em.
      rewrite Em. cbn [length]. lia. }
    unfold getitem.
    destruct (nth_error xs (argmin_from 0 v 1 vs)) as [xi|] eqn:En.
    + exists xi. reflexivity.
    + apply nth_error_None in En. lia.
Qed.

Lemma constructed_three (self : MultiMountainsEnv) :
  constructed self -> (3 <= length (x self))%nat.
Proof.
  intros Hc. destruct (constructed_terrain self Hc)
    as (angles & Hang & _ & _ & _ & _ & Hlen).
  destruct angles; [congruence|]. rewrite Hlen. cbn [length]. lia.
Qed.

Lemma reachable_constructed (self0 self : MultiMountainsEnv) :
  constructed self0 -> reachable self0 self ->
  constructed self /\ exists s, state self = Some s.
Proof.
  intros Hc Hr. induction Hr as [obs self1 Hreset | self action obs r d self' Hr IH Ha Hstep].
  - destruct (reset_spec self0 (constructed_three _ Hc)) as [xi Hxi].
    rewrite Hxi in Hreset. injection Hreset as _ <-. split.
    + now apply constructed_set_state, constructed_set_counter.
    + eexists; reflexivity.
  - destruct IH as [Hcs [[x0 v0] Hs]].
    destruct (constructed_extrema self Hcs) as (Hlo & Hhi & _).
    rewrite (step_spec self action x0 v0 _ _ Hs Hlo Hhi) in Hstep.
    injection Hstep as _ _ _ <-. split.
    + now apply constructed_set_counter, constructed_set_state.
    + eexists; reflexivity.
Qed.

End Dynamics.

(** ** The terrain builder: segments, order, independence of the angles *)

Section TerrainTheorems.

Lemma enumerate_from_app {A : Type} (l1 l2 : list A) (i : nat) :
  enumerate_from i (l1 ++ l2) =
  enumerate_from i l1 ++ enumerate_from (i + length l1) l2.
Proof.
  revert i; induction l1 as [|b l1 IH]; intros i; simpl.
  - now rewrite Nat.add_0_r.
  - rewrite IH. now rewrite Nat.add_succ_r.
Qed.

(** The loop only ever appends. *)
Lemma outer_body_appends (points : list (R * R)) (ia : nat * R) :
  exists t, outer_body points ia = points ++ t.
Proof.
  destruct ia as [i a]. destruct i as [|i].
  - eexists. apply outer_body_first.
  - destruct points as [|p ps].
    + eexists. reflexivity.
    + eexists. apply outer_body_next; congruence.
Qed.

Lemma fold_outer_appends (l : list (nat * R)) (points : list (R * R)) :
  exists t, fold_left outer_body l points = points ++ t.
Proof.
  revert points; induction l as [|ia l IH]; intros points; simpl.
  - exists []. now rewrite app_nil_r.
  - destruct (outer_body_appends points ia) as [t Ht].
    destruct (IH (outer_body points ia)) as [t' Ht'].
    exists (t ++ t'). rewrite Ht', Ht. now rewrite app_assoc.
Qed.

Lemma calc_points_prefix (l1 l2 : list R) :
  exists t, calc_points (l1 ++ l2) = calc_points l1 ++ t.
Proof.
  unfold calc_points, enumerate.
  rewrite enumerate_from_app, fold_left_app. apply fold_outer_appends.
Qed.

(** C7.  For every angle sequence and every segment but the first (the
    segment of the angle [a], which comes after the non-empty [before]),
    [calc_points] drops the segment's local first point [(x1, y1)] and
    appends its two other points shifted by the offset between the last
    point accepted so far [(lx, ly)] and [(x1, y1)]; shifted by that offset
    the dropped first point falls on [(lx, ly)]: the segment begins where
    the previous one ended, with no gap. *)
Theorem calc_points_segment_continuity
    (before after : list R) (a x1 y1 x2 y2 x3 y3 lx ly : R) :
  before <> [] ->
  get_env_points a = [(x1, y1); (x2, y2); (x3, y3)] ->
  last (calc_points before) (0, 0) = (lx, ly) ->
  (exists rest,
     calc_points (before ++ a :: after) =
     calc_points before
       ++ [(x2 + (lx - x1), y2 + (ly - y1)); (x3 + (lx - x1), y3 + (ly - y1))]
       ++ rest) /\
  (x1 + (lx - x1), y1 + (ly - y1)) = (lx, ly).
Proof.
  intros Hne Hpts Hlast. split.
  - replace (before ++ a :: after) with ((before ++ [a]) ++ after)
      by (rewrite <- app_assoc; reflexivity).
    destruct (calc_points_prefix (before ++ [a]) after) as [rest Hrest].
    exists rest. rewrite Hrest, (calc_points_extend before a Hne).
    rewrite <- app_assoc. do 2 f_equal.
    unfold offset, shift. rewrite Hpts, Hlast. reflexivity.
  - f_equal; lra.
Qed.

Lemma calc_points_segment_continuity_witness :
  [0] <> [] /\
  (exists rest,
     calc_points ([0] ++ 30 :: [10]) =
     calc_points [0]
       ++ [(- PI / 6 + (0.5 - -1.2), h (- PI / 6) + (calc_height 0 - h (-1.2)));
           (0.5 + (0.5 - -1.2), calc_height 30 + (calc_height 0 - h (-1.2)))]
       ++ rest) /\
  (-1.2 + (0.5 - -1.2), h (-1.2) + (calc_height 0 - h (-1.2)))
  = (0.5, calc_height 0).
Proof.
  split; [discriminate|].
  apply (calc_points_segment_continuity [0] [10] 30
           (-1.2) (h (-1.2)) (- PI / 6) (h (- PI / 6)) 0.5 (calc_height 30)
           0.5 (calc_height 0)).
  - discriminate.
  - reflexivity.
  - reflexivity.
Defined.

(** C8.  The abscissas of the control points that [calc_points] returns are
    strictly increasing over the whole sequence, whatever the angles: every
    abscissa is less than every later one.  There are [2 N + 1] control
    points for [N >= 1] angles. *)
Theorem calc_points_abscissas_increasing (angles : list R) :
  StronglySorted Rlt (map fst (calc_points angles)) /\
  length (calc_points angles)
  = match angles with
    | [] => 0%nat
    | _ :: _ => (2 * length angles + 1)%nat
    end.
Proof.
  split; [apply calc_points_sorted|].
  destruct angles as [|a l]; [reflexivity|].
  apply calc_points_length. congruence.
Qed.

(** C10.  Two angle sequences of the same length give control points with
    the same abscissas, one by one, and so the same peak abscissas at
    construction: the constructor succeeds on both or fails on both, with
    equal [x] and equal [x_peaks].  The angles only reach the ordinates. *)
Theorem abscissas_independent_of_angles (angles1 angles2 : list R) :
  length angles1 = length angles2 ->
  map fst (calc_points angles1) = map fst (calc_points angles2) /\
  forall (sp1 sp2 : spline) (ms1 ms2 : Z) (gr1 gr2 fo1 fo2 de1 de2 : R),
    match init sp1 angles1 ms1 gr1 fo1 de1, init sp2 angles2 ms2 gr2 fo2 de2 with
    | Ok self1, Ok self2 =>
        x self1 = x self2 /\ x_peaks self1 = x_peaks self2
    | Raise e1, Raise e2 => e1 = e2
    | _, _ => False
    end.
Proof.
  intros Hlen.
  pose proof (abscissas_by_length (length angles1) angles1 angles2
                eq_refl (eq_sym Hlen)) as Hx.
  split; [exact Hx|]. intros.
  destruct angles1 as [|a1 l1]; destruct angles2 as [|a2 l2];
    try discriminate Hlen.
  - reflexivity.
  - destruct (init_ok sp1 (a1 :: l1) ms1 gr1 fo1 de1) as [s1 H1]; [congruence|].
    destruct (init_ok sp2 (a2 :: l2) ms2 gr2 fo2 de2) as [s2 H2]; [congruence|].
    rewrite H1, H2.
    apply init_fields in H1. apply init_fields in H2.
    destruct H1 as (_ & Hx1 & Hp1 & _). destruct H2 as (_ & Hx2 & Hp2 & _).
    assert (E : x s1 = x s2) by (rewrite Hx1, Hx2; exact Hx).
    split; [exact E|]. rewrite Hp1, Hp2, E. reflexivity.
Qed.

Lemma abscissas_independent_of_angles_witness :
  length [0; 45] = length [-30; 170] /\
  map fst (calc_points [0; 45]) = map fst (calc_points [-30; 170]) /\
  forall (sp1 sp2 : spline) (ms1 ms2 : Z) (gr1 gr2 fo1 fo2 de1 de2 : R),
    match init sp1 [0; 45] ms1 gr1 fo1 de1,
          init sp2 [-30; 170] ms2 gr2 fo2 de2 with
    | Ok self1, Ok self2 =>
        x self1 = x self2 /\ x_peaks self1 = x_peaks self2
    | Raise e1, Raise e2 => e1 = e2
    | _, _ => False
    end.
Proof.
  split; [reflexivity|].
  apply (abscissas_independent_of_angles [0; 45] [-30; 170]). reflexivity.
Defined.

End TerrainTheorems.

(** ** The peaks and the reward *)

Section PeaksAndReward.

Lemma nth_from1 {A : Type} (d : A) (k : nat) (a : list A) :
  nth k (from1 a) d = nth (S k) a d.
Proof. destruct a as [|a0 a]; [destruct k|]; reflexivity. Qed.

Lemma length_peaks {A : Type} (n : nat) (a : list A) :
  length a = (2 * n + 1)%nat -> length (from1 (stride2 a)) = n.
Proof.
  intros Ha. apply length_stride2 in Ha.
  destruct (stride2 a); simpl in *; lia.
Qed.

(** C3, as the claim states it, fails for a single angle: the constructor
    selects one peak, not zero. *)
Lemma peak_count_counterexample :
  exists self,
    init_default level_curve [0] = Ok self /\
    x self = [-1.2; - PI / 6; 0.5] /\
    x_peaks self = [0.5] /\
    Z.of_nat (length (x_peaks self)) <> (Z.of_nat (length (angles self)) - 1)%Z.
Proof.
  eexists. split; [reflexivity|].
  cbn [x x_peaks angles]. repeat split. discriminate.
Qed.

(** C3, amended.  The peak points selected at construction are the control
    points at the even indices after the first, [x[::2][1:]], that is the
    control points of index 2, 4, ..., 2 N, the last control point
    included; there are as many peaks as angles. *)
Theorem peaks_are_even_control_points
    (CubicSpline : spline) (angles : list R) (ms : Z) (gr fo de : R)
    (self : MultiMountainsEnv) :
  init CubicSpline angles ms gr fo de = Ok self ->
  x_peaks self = from1 (stride2 (x self)) /\
  y_peaks self = from1 (stride2 (y self)) /\
  length (x_peaks self) = length angles /\
  length (y_peaks self) = length angles /\
  (1 <= length angles)%nat /\
  forall k : nat,
    nth k (x_peaks self) 0 = nth (2 * k + 2) (x self) 0 /\
    nth k (y_peaks self) 0 = nth (2 * k + 2) (y self) 0.
Proof.
  intros Hinit. apply init_fields in Hinit.
  destruct Hinit as (Hne & Hx & Hpx & Hy & Hf & _).
  assert (Hpy : y_peaks self = from1 (stride2 (y self))).
  { destruct Hf as [_ Hf]. exact Hf. }
  pose proof (calc_points_length angles Hne) as Hlen.
  rewrite Hpx, Hpy.
  repeat split.
  - apply length_peaks. now rewrite Hx, length_map.
  - apply length_peaks. now rewrite Hy, length_map.
  - destruct angles; [congruence | simpl; lia].
  - rewrite nth_from1, nth_stride2. f_equal. lia.
  - rewrite nth_from1, nth_stride2. f_equal. lia.
Qed.

Lemma peaks_are_even_control_points_witness :
  exists self,
    init_default level_curve [0; 45] = Ok self /\
    x_peaks self = from1 (stride2 (x self)) /\
    y_peaks self = from1 (stride2 (y self)) /\
    length (x_peaks self) = length [0; 45] /\
    length (y_peaks self) = length [0; 45] /\
    (1 <= length [0; 45])%nat /\
    forall k : nat,
      nth k (x_peaks self) 0 = nth (2 * k + 2) (x self) 0 /\
      nth k (y_peaks self) 0 = nth (2 * k + 2) (y self) 0.
Proof.
  eexists. split; [reflexivity|].
  apply (peaks_are_even_control_points level_curve [0; 45] 500 0.0025 1e-3 1e-12).
  reflexivity.
Defined.

(** The two crossing tests, as properties of a peak abscissa. *)
Lemma existsb_up (peaks : list R) (p x0 : R) :
  existsb (fun pk => Rltb pk x0 && Rltb p pk) peaks = true <->
  Exists (fun pk => p < pk /\ x0 > pk) peaks.
Proof.
  rewrite existsb_exists, Exists_exists.
  split; intros [pk [Hin H]]; exists pk; split; try exact Hin.
  - apply andb_true_iff in H. destruct H as [H1 H2].
    apply Rltb_true in H1, H2. lra.
  - apply andb_true_iff. split; apply Rltb_true; lra.
Qed.

Lemma existsb_down (peaks : list R) (p x0 : R) :
  existsb (fun pk => Rltb x0 pk && Rltb pk p) peaks = true <->
  Exists (fun pk => p > pk /\ x0 < pk) peaks.
Proof.
  rewrite existsb_exists, Exists_exists.
  split; intros [pk [Hin H]]; exists pk; split; try exact Hin.
  - apply andb_true_iff in H. destruct H as [H1 H2].
    apply Rltb_true in H1, H2. lra.
  - apply andb_true_iff. split; apply Rltb_true; lra.
Qed.

(** The two crossings exclude each other: an upward crossing has [p < x]
    and a downward one [x < p]. *)
Lemma crossings_exclusive (peaks : list R) (p x0 : R) :
  Exists (fun pk => p < pk /\ x0 > pk) peaks ->
  Exists (fun pk => p > pk /\ x0 < pk) peaks -> False.
Proof.
  rewrite !Exists_exists. intros [u [_ Hu]] [w [_ Hw]]. lra.
Qed.

(** C2.  [reward p x] is [+5] when some peak abscissa lies strictly between
    the previous position [p] and the new position [x], going up
    ([p < peak_x] and [x > peak_x]); otherwise [-5] when some peak abscissa
    is crossed going down ([p > peak_x] and [x < peak_x]); otherwise [-1].
    The upward test comes first, so it decides alone: the first case does
    not look at the downward test. *)
Theorem reward_cases (self : MultiMountainsEnv) (p x0 : R) :
  (Exists (fun pk => p < pk /\ x0 > pk) (x_peaks self) ->
   reward self p x0 = 5%Z) /\
  (~ Exists (fun pk => p < pk /\ x0 > pk) (x_peaks self) ->
   Exists (fun pk => p > pk /\ x0 < pk) (x_peaks self) ->
   reward self p x0 = (-5)%Z) /\
  (~ Exists (fun pk => p < pk /\ x0 > pk) (x_peaks self) ->
   ~ Exists (fun pk => p > pk /\ x0 < pk) (x_peaks self) ->
   reward self p x0 = (-1)%Z).
Proof.
  unfold reward.
  pose proof (existsb_up (x_peaks self) p x0) as Hup.
  pose proof (existsb_down (x_peaks self) p x0) as Hdown.
  destruct (existsb (fun pk => Rltb pk x0 && Rltb p pk) (x_peaks self));
    destruct (existsb (fun pk => Rltb x0 pk && Rltb pk p) (x_peaks self));
    repeat split; intros; try reflexivity;
    try (exfalso; intuition congruence).
Qed.

Lemma reward_cases_witness :
  exists self,
    init_default level_curve [0] = Ok self /\
    x_peaks self = [0.5] /\
    reward self 0.45 0.51 = 5%Z /\
    reward self 0.51 0.45 = (-5)%Z /\
    reward self 0.1 0.2 = (-1)%Z.
Proof.
  eexists. split; [reflexivity|]. split; [reflexivity|].
  match goal with |- reward ?s _ _ = _ /\ _ => set (self := s) end.
  assert (Hup : Exists (fun pk => 0.45 < pk /\ 0.51 > pk) (x_peaks self)).
  { change (x_peaks self) with [0.5]. apply Exists_cons_hd. simpl. lra. }
  assert (Hno : ~ Exists (fun pk => 0.51 < pk /\ 0.45 > pk) (x_peaks self)).
  { change (x_peaks self) with [0.5]. intros H.
    inversion H as [? ? H1|? ? H1]; [simpl in H1; lra | inversion H1]. }
  assert (Hdown : Exists (fun pk => 0.51 > pk /\ 0.45 < pk) (x_peaks self)).
  { change (x_peaks self) with [0.5]. apply Exists_cons_hd. simpl. lra. }
  assert (Hno1 : ~ Exists (fun pk => 0.1 < pk /\ 0.2 > pk) (x_peaks self)).
  { change (x_peaks self) with [0.5]. intros H.
    inversion H as [? ? H1|? ? H1]; [simpl in H1; lra | inversion H1]. }
  assert (Hno2 : ~ Exists (fun pk => 0.1 > pk /\ 0.2 < pk) (x_peaks self)).
  { change (x_peaks self) with [0.5]. intros H.
    inversion H as [? ? H1|? ? H1]; [simpl in H1; lra | inversion H1]. }
  split; [|split].
  - exact (proj1 (reward_cases self 0.45 0.51) Hup).
  - exact (proj1 (proj2 (reward_cases self 0.51 0.45)) Hno Hdown).
  - exact (proj2 (proj2 (reward_cases self 0.1 0.2)) Hno1 Hno2).
Defined.

End PeaksAndReward.

(** ** The step: update, bounds, wall, termination, actions *)

Section StepTheorems.

(** The environment of the examples: one hill of angle 0, the default
    arguments, the level curve. *)
Lemma one_hill_facts (self0 : MultiMountainsEnv) :
  init_default level_curve [0] = Ok self0 ->
  constructed self0 /\
  x self0 = [-1.2; - PI / 6; 0.5] /\
  x_peaks self0 = [0.5] /\
  F self0 = 1e-3 /\ g self0 = 0.0025 /\ delta self0 = 1e-12 /\
  max_speed self0 = 0.07 /\ max_step self0 = 500%Z /\ counter self0 = 0%Z /\
  (forall a b, f self0 a - f self0 b = 0) /\
  np_min (x self0) = Ok (-1.2) /\ np_max (x self0) = Ok 0.5.
Proof.
  intros H0. pose proof (constructed_init _ _ _ _ _ _ _ H0) as Hc.
  destruct (constructed_extrema self0 Hc) as (Hlo & Hhi & _).
  apply init_fields in H0.
  destruct H0 as (_ & Hx & Hpk & _ & (Hf & _) & Hms & Hg & HF & Hd & Hmax & Hcnt & _).
  assert (Hx' : x self0 = [-1.2; - PI / 6; 0.5]) by (rewrite Hx; reflexivity).
  repeat split; try assumption.
  - rewrite Hpk, Hx'. reflexivity.
  - intros a b. rewrite Hf. unfold level_curve. lra.
  - rewrite Hhi, Hx'. reflexivity.
Qed.


(** Forcing the state keeps the terrain and the constants. *)
Lemma set_state_static (self : MultiMountainsEnv) (s : R * R) :
  x (set_state self s) = x self /\
  F (set_state self s) = F self /\ g (set_state self s) = g self /\
  delta (set_state self s) = delta self /\ f (set_state self s) = f self /\
  max_speed (set_state self s) = max_speed self /\
  max_step (set_state self s) = max_step self /\
  counter (set_state self s) = counter self /\
  state (set_state self s) = Some s.
Proof. repeat split. Qed.

(** C1, as the claim states it, fails at the left wall: from [x_min] with
    velocity [-0.01] and action 1 the claimed new velocity is [-0.01], and
    [step] stores and returns [0.01]. *)
Lemma step_velocity_counterexample :
  exists self0 r d self',
    init_default level_curve [0] = Ok self0 /\
    np_min (x self0) = Ok (-1.2) /\
    step (set_state self0 (-1.2, -0.01)) 1 = Ok ((-1.2, 1e-2), r, d, tt, self') /\
    state self' = Some (-1.2, 1e-2) /\
    np_clip (-0.01 + IZR (1 - 1) * F self0
             - (f self0 (-1.2 + delta self0) - f self0 (-1.2)) / delta self0
               * g self0)
            (- max_speed self0) (max_speed self0) = -0.01 /\
    1e-2 <> -0.01.
Proof.
  destruct (init_ok level_curve [0] 500 0.0025 1e-3 1e-12) as [self0 H0];
    [discriminate|].
  destruct (one_hill_facts self0 H0)
    as (Hc & Hx & Hpk & HF & Hg & Hd & Hms & Hmax & Hcnt & Hf & Hlo & Hhi).
  assert (Hv : np_clip (-0.01 + IZR (1 - 1) * F self0
             - (f self0 (-1.2 + delta self0) - f self0 (-1.2)) / delta self0
               * g self0)
            (- max_speed self0) (max_speed self0) = -0.01).
  { rewrite Hf, HF, Hg, Hd, Hms.
    replace (-0.01 + IZR (1 - 1) * 1e-3 - 0 / 1e-12 * 0.0025) with (-0.01)
      by (simpl; lra).
    apply np_clip_inside; lra. }
  pose proof (step_spec (set_state self0 (-1.2, -0.01)) 1 (-1.2) (-0.01)
                (-1.2) 0.5 eq_refl Hlo Hhi) as Hstep.
  cbv zeta in Hstep. unfold clamped_velocity in Hstep.
  cbn [F f delta g max_speed set_state] in Hstep.
  rewrite Hv in Hstep.
  assert (Hx1 : np_clip (-1.2 + -0.01) (-1.2) 0.5 = -1.2)
    by (apply np_clip_below; lra).
  rewrite Hx1 in Hstep.
  assert (Hb : Rleb (-1.2) (-1.2) && Rltb (-0.01) 0 = true).
  { apply andb_true_iff. split; [apply Rleb_true | apply Rltb_true]; lra. }
  rewrite Hb in Hstep.
  exists self0. do 3 eexists.
  split; [exact H0|]. split; [exact Hlo|].
  split; [exact Hstep|]. split; [reflexivity|]. split; [exact Hv | lra].
Qed.

(** C1, amended.  For every assigned state [(x0, v0)] and every action,
    [step] computes [v' = clip(v0 + (action - 1) * F - derivative(x0) * g,
    -v_max, +v_max)], with [derivative(x0) = (f(x0 + delta) - f(x0)) /
    delta], and the new position [x' = clip(x0 + v', x_min, x_max)].  The
    new velocity is [v'], except when [x' <= x_min] and [v' < 0], where it
    is [1e-2]. *)
Theorem step_update (self : MultiMountainsEnv) (action : Z)
    (x0 v0 lo hi : R) :
  state self = Some (x0, v0) ->
  np_min (x self) = Ok lo -> np_max (x self) = Ok hi ->
  exists v' x' v'' r d self',
    v' = np_clip (v0 + IZR (action - 1) * F self
                  - (f self (x0 + delta self) - f self x0) / delta self
                    * g self)
                 (- max_speed self) (max_speed self) /\
    x' = np_clip (x0 + v') lo hi /\
    (x' <= lo /\ v' < 0 -> v'' = 1e-2) /\
    (~ (x' <= lo /\ v' < 0) -> v'' = v') /\
    step self action = Ok ((x', v''), r, d, tt, self') /\
    state self' = Some (x', v'').
Proof.
  intros Hs Hlo Hhi.
  pose proof (step_spec self action x0 v0 lo hi Hs Hlo Hhi) as Hstep.
  cbv zeta in Hstep. unfold clamped_velocity in Hstep.
  do 6 eexists.
  split; [reflexivity|]. split; [reflexivity|].
  split; [|split; [|split; [exact Hstep | reflexivity]]].
  - intros [H1 H2].
    apply Rleb_true in H1. apply Rltb_true in H2. now rewrite H1, H2.
  - intros Hn.
    match goal with
    | |- (if ?b1 && ?b2 then _ else _) = _ =>
        destruct b1 eqn:E1; destruct b2 eqn:E2; try reflexivity
    end.
    exfalso. apply Hn. split; [now apply Rleb_true | now apply Rltb_true].
Qed.

Lemma step_update_witness :
  exists self0,
    init_default level_curve [0] = Ok self0 /\
    state (set_state self0 (-0.5, 0)) = Some (-0.5, 0) /\
    np_min (x (set_state self0 (-0.5, 0))) = Ok (-1.2) /\
    np_max (x (set_state self0 (-0.5, 0))) = Ok 0.5 /\
    exists v' x' v'' r d self',
      v' = np_clip (0 + IZR (2 - 1) * F (set_state self0 (-0.5, 0))
                    - (f (set_state self0 (-0.5, 0))
                         (-0.5 + delta (set_state self0 (-0.5, 0)))
                       - f (set_state self0 (-0.5, 0)) (-0.5))
                      / delta (set_state self0 (-0.5, 0))
                      * g (set_state self0 (-0.5, 0)))
                   (- max_speed (set_state self0 (-0.5, 0)))
                   (max_speed (set_state self0 (-0.5, 0))) /\
      x' = np_clip (-0.5 + v') (-1.2) 0.5 /\
      (x' <= -1.2 /\ v' < 0 -> v'' = 1e-2) /\
      (~ (x' <= -1.2 /\ v' < 0) -> v'' = v') /\
      step (set_state self0 (-0.5, 0)) 2 = Ok ((x', v''), r, d, tt, self') /\
      state self' = Some (x', v'').
Proof.
  destruct (init_ok level_curve [0] 500 0.0025 1e-3 1e-12) as [self0 H0];
    [discriminate|].
  destruct (one_hill_facts self0 H0)
    as (Hc & Hx & Hpk & HF & Hg & Hd & Hms & Hmax & Hcnt & Hf & Hlo & Hhi).
  exists self0.
  split; [exact H0|]. split; [reflexivity|].
  split; [exact Hlo|]. split; [exact Hhi|].
  exact (step_update (set_state self0 (-0.5, 0)) 2 (-0.5) 0 (-1.2) 0.5
           eq_refl Hlo Hhi).
Defined.

Lemma step_static (self : MultiMountainsEnv) (s : R * R) (c : Z) :
  x (set_counter (set_state self s) c) = x self /\
  max_speed (set_counter (set_state self s) c) = max_speed self /\
  max_step (set_counter (set_state self s) c) = max_step self /\
  counter (set_counter (set_state self s) c) = c /\
  state (set_counter (set_state self s) c) = Some s.
Proof. repeat split. Qed.

(** C4.  From [reset] on, through any finite sequence of [step] calls with
    actions 0, 1 or 2, every further [step] returns, and the state it
    stores and returns has its position in [[x_min, x_max]] and its
    velocity in [[-v_max, v_max]], the wall branch (velocity [1e-2])
    included. *)
Theorem step_keeps_bounds (self0 self : MultiMountainsEnv) (action : Z) :
  constructed self0 -> reachable self0 self -> (0 <= action <= 2)%Z ->
  exists x1 v1 r d self' lo hi,
    step self action = Ok ((x1, v1), r, d, tt, self') /\
    state self' = Some (x1, v1) /\
    np_min (x self') = Ok lo /\ np_max (x self') = Ok hi /\
    lo <= x1 <= hi /\
    Rabs v1 <= max_speed self' /\
    reachable self0 self'.
Proof.
  intros Hc0 Hr Ha.
  destruct (reachable_constructed self0 self Hc0 Hr) as [Hc [[x0 v0] Hs]].
  destruct (constructed_extrema self Hc) as (Hlo & Hhi & _).
  destruct (constructed_terrain self Hc) as (_ & _ & _ & _ & Hms & _).
  pose proof (step_spec self action x0 v0 _ _ Hs Hlo Hhi) as Hstep.
  cbv zeta in Hstep.
  set (v' := clamped_velocity self x0 v0 action) in *.
  set (x' := np_clip (x0 + v') (-1.2) (last (x self) 0)) in *.
  set (v'' := if Rleb x' (-1.2) && Rltb v' 0 then 1e-2 else v') in *.
  exists x', v''. do 3 eexists. exists (-1.2), (last (x self) 0).
  split; [exact Hstep|]. split; [reflexivity|].
  split; [exact Hlo|]. split; [exact Hhi|].
  split; [|split].
  - apply np_clip_bounds. exact (np_min_le_max _ _ _ Hlo Hhi).
  - change (max_speed (set_counter (set_state self (x', v'')) (counter self + 1)))
      with (max_speed self).
    rewrite Hms. apply Rabs_le.
    assert (Hv : - max_speed self <= v' <= max_speed self).
    { unfold v', clamped_velocity. apply np_clip_bounds. lra. }
    rewrite Hms in Hv.
    unfold v''. destruct (Rleb x' (-1.2) && Rltb v' 0); lra.
  - exact (reach_step self0 self action _ _ _ _ Hr Ha Hstep).
Qed.

Lemma step_keeps_bounds_witness :
  exists self0 obs self,
    init_default level_curve [0] = Ok self0 /\
    reset self0 = Ok (obs, self) /\
    constructed self0 /\ reachable self0 self /\ (0 <= 2 <= 2)%Z /\
    exists x1 v1 r d self' lo hi,
      step self 2 = Ok ((x1, v1), r, d, tt, self') /\
      state self' = Some (x1, v1) /\
      np_min (x self') = Ok lo /\ np_max (x self') = Ok hi /\
      lo <= x1 <= hi /\
      Rabs v1 <= max_speed self' /\
      reachable self0 self'.
Proof.
  destruct (init_ok level_curve [0] 500 0.0025 1e-3 1e-12) as [self0 H0];
    [discriminate|].
  pose proof (constructed_init _ _ _ _ _ _ _ H0) as Hc.
  destruct (reset_spec self0 (constructed_three self0 Hc)) as [xi Hxi].
  exists self0, (xi, 0), (set_state (set_counter self0 0) (xi, 0)).
  split; [exact H0|]. split; [exact Hxi|]. split; [exact Hc|].
  split; [exact (reach_reset self0 _ _ Hxi)|].
  split; [lia|].
  apply (step_keeps_bounds self0 (set_state (set_counter self0 0) (xi, 0)) 2).
  - exact Hc.
  - exact (reach_reset self0 _ _ Hxi).
  - lia.
Defined.

(** C5, as the claim states it, fails for a step that starts at [x_max]
    and moves left: from [(x_max, -0.05)] with action 0 and the counter at
    0 the step ends at [0.449 < x_max = 0.5] and reports [done = false]. *)
Lemma done_at_goal_counterexample :
  exists self0 r self',
    init_default level_curve [0] = Ok self0 /\
    np_max (x self0) = Ok 0.5 /\
    counter self0 = 0%Z /\ max_step self0 = 500%Z /\
    step (set_state self0 (0.5, -0.05)) 0
    = Ok ((0.449, -0.051), r, false, tt, self').
Proof.
  destruct (init_ok level_curve [0] 500 0.0025 1e-3 1e-12) as [self0 H0];
    [discriminate|].
  destruct (one_hill_facts self0 H0)
    as (Hc & Hx & Hpk & HF & Hg & Hd & Hms & Hmax & Hcnt & Hf & Hlo & Hhi).
  pose proof (step_spec (set_state self0 (0.5, -0.05)) 0 0.5 (-0.05)
                (-1.2) 0.5 eq_refl Hlo Hhi) as Hstep.
  cbv zeta in Hstep. unfold clamped_velocity in Hstep.
  cbn [F f delta g max_speed max_step counter x set_state] in Hstep.
  rewrite Hf, HF, Hg, Hd, Hms, Hmax, Hcnt, Hx in Hstep.
  replace (-0.05 + IZR (0 - 1) * 1e-3 - 0 / 1e-12 * 0.0025) with (-0.051)
    in Hstep by (simpl; lra).
  rewrite (np_clip_inside (-0.051) (- (0.07)) 0.07) in Hstep by lra.
  replace (0.5 + -0.051) with 0.449 in Hstep by lra.
  rewrite (np_clip_inside 0.449 (-1.2) 0.5) in Hstep by lra.
  replace (Rleb 0.449 (-1.2)) with false in Hstep
    by (symmetry; apply Rleb_false; lra).
  cbn [andb last] in Hstep.
  replace (Rleb 0.5 0.449) with false in Hstep
    by (symmetry; apply Rleb_false; lra).
  cbn [Z.add Z.eqb Pos.eqb orb] in Hstep.
  exists self0. do 2 eexists.
  split; [exact H0|]. split; [exact Hhi|].
  split; [exact Hcnt|]. split; [exact Hmax|]. exact Hstep.
Qed.

(** C5, amended.  [done()] returns true if and only if the counter equals
    [max_step] or the position is at least [x_max], the last control-point
    abscissa [x[-1]].  [step] reports [done()] of the state it has just
    stored: when the position after the update equals [x_max] it reports
    [done = true] whatever the counter; a step that starts at [x_max] does
    so when its clamped velocity is not negative. *)
Theorem done_iff_limit_or_goal (self : MultiMountainsEnv) (x0 v0 : R) :
  constructed self -> state self = Some (x0, v0) ->
  exists xmax b,
    np_max (x self) = Ok xmax /\ getlast (x self) = Ok xmax /\
    done self = Ok b /\
    (b = true <-> counter self = max_step self \/ x0 >= xmax) /\
    forall action x1 v1 r d self',
      step self action = Ok ((x1, v1), r, d, tt, self') ->
      done self' = Ok d /\
      (x1 = xmax -> d = true) /\
      (x0 = xmax -> clamped_velocity self x0 v0 action >= 0 -> d = true).
Proof.
  intros Hc Hs.
  destruct (constructed_extrema self Hc) as (Hlo & Hhi & Hlast & Hlt).
  pose proof (constructed_x_nonempty self Hc) as Hne.
  exists (last (x self) 0). eexists.
  split; [exact Hhi|]. split; [exact Hlast|].
  split; [exact (done_spec self (x0, v0) Hs Hne)|].
  split.
  - rewrite orb_true_iff, Z.eqb_eq, Rleb_true. cbn [fst].
    split; (intros [H|H]; [left; exact H | right; lra]).
  - intros action x1 v1 r d self' Hstep.
    rewrite (step_spec self action x0 v0 _ _ Hs Hlo Hhi) in Hstep.
    cbv zeta in Hstep. injection Hstep as Hx1 Hv1 Hr Hd Hself.
    split; [|split].
    + rewrite <- Hself. rewrite (done_spec _ (x1, v1)).
      * cbn [counter max_step x set_counter set_state fst].
        rewrite <- Hd, Hx1. reflexivity.
      * rewrite <- Hx1, <- Hv1. reflexivity.
      * exact Hne.
    + intros E. rewrite <- Hd. apply orb_true_iff. right.
      apply Rleb_true. rewrite Hx1, E. lra.
    + intros E Hv. rewrite <- Hd. apply orb_true_iff. right.
      apply Rleb_true. subst x0.
      unfold np_clip, Rmin, Rmax.
      destruct (Rle_dec _ (-1.2)); destruct (Rle_dec _ (last (x self) 0)); lra.
Qed.

Lemma done_iff_limit_or_goal_witness :
  exists self0,
    init_default level_curve [0] = Ok self0 /\
    constructed (set_state self0 (0.5, 0.01)) /\
    state (set_state self0 (0.5, 0.01)) = Some (0.5, 0.01) /\
    exists xmax b,
      np_max (x (set_state self0 (0.5, 0.01))) = Ok xmax /\
      getlast (x (set_state self0 (0.5, 0.01))) = Ok xmax /\
      done (set_state self0 (0.5, 0.01)) = Ok b /\
      (b = true <->
       counter (set_state self0 (0.5, 0.01))
       = max_step (set_state self0 (0.5, 0.01)) \/ 0.5 >= xmax) /\
      forall action x1 v1 r d self',
        step (set_state self0 (0.5, 0.01)) action
        = Ok ((x1, v1), r, d, tt, self') ->
        done self' = Ok d /\
        (x1 = xmax -> d = true) /\
        (0.5 = xmax ->
         clamped_velocity (set_state self0 (0.5, 0.01)) 0.5 0.01 action >= 0 ->
         d = true).
Proof.
  destruct (init_ok level_curve [0] 500 0.0025 1e-3 1e-12) as [self0 H0];
    [discriminate|].
  pose proof (constructed_init _ _ _ _ _ _ _ H0) as Hc.
  exists self0. split; [exact H0|].
  split; [exact (constructed_set_state self0 (0.5, 0.01) Hc)|].
  split; [reflexivity|].
  exact (done_iff_limit_or_goal (set_state self0 (0.5, 0.01)) 0.5 0.01
           (constructed_set_state self0 (0.5, 0.01) Hc) eq_refl).
Defined.




(** C9, as the claim states it, fails: after [reset], [step(5)] raises
    nothing; it returns, having pushed with [(5 - 1) * F = 0.004]. *)
Lemma invalid_action_counterexample :
  exists self0 obs self1 x1 r d self',
    init_default level_curve [0] = Ok self0 /\
    reset self0 = Ok (obs, self1) /\
    step self1 5 = Ok ((x1, 0.004), r, d, tt, self').
Proof.
  destruct (init_ok level_curve [0] 500 0.0025 1e-3 1e-12) as [self0 H0];
    [discriminate|].
  destruct (one_hill_facts self0 H0)
    as (Hc & Hx & Hpk & HF & Hg & Hd & Hms & Hmax & Hcnt & Hf & Hlo & Hhi).
  destruct (reset_spec self0 (constructed_three self0 Hc)) as [xi Hxi].
  pose proof (step_spec (set_state (set_counter self0 0) (xi, 0)) 5 xi 0
                (-1.2) 0.5 eq_refl Hlo Hhi) as Hstep.
  cbv zeta in Hstep. unfold clamped_velocity in Hstep.
  cbn [F f delta g max_speed set_state set_counter] in Hstep.
  rewrite Hf, HF, Hg, Hd, Hms in Hstep.
  replace (0 + IZR (5 - 1) * 1e-3 - 0 / 1e-12 * 0.0025) with 0.004
    in Hstep by (simpl; lra).
  rewrite (np_clip_inside 0.004 (- (0.07)) 0.07) in Hstep by lra.
  replace (Rltb 0.004 0) with false in Hstep
    by (symmetry; apply Rltb_false; lra).
  rewrite andb_false_r in Hstep.
  exists self0, (xi, 0), (set_state (set_counter self0 0) (xi, 0)).
  do 4 eexists.
  split; [exact H0|]. split; [exact Hxi|]. exact Hstep.
Qed.

Lemma step_int_fits (self : MultiMountainsEnv) (action : Z) (s : R * R) :
  state self = Some s -> fits_double (action - 1) = true ->
  step_int self action = step self action.
Proof.
  intros Hs Hf. unfold step_int, get_state, float_of_int.
  now rewrite Hs, Hf.
Qed.

(** C9, amended.  [step] does not check its action against 0, 1, 2.  On a
    constructed object whose state was assigned it returns for every
    integer action whose [action - 1] converts to a float (below
    [2^1024 - 2^970] in absolute value, so every machine integer), inside
    or outside 0, 1, 2, and the action only enters through the push
    [(action - 1) * F].  The errors it reports are [AttributeError] for a
    state that was never assigned, whatever the action, and
    [OverflowError] from the conversion of an integer beyond that range;
    no action is refused for being outside 0, 1, 2. *)
Theorem step_does_not_validate_action (self : MultiMountainsEnv)
    (action : Z) :
  constructed self ->
  (state self = None -> step_int self action = Raise AttributeError) /\
  (forall x0 v0, state self = Some (x0, v0) ->
   (fits_double (action - 1) = false ->
    step_int self action = Raise OverflowError) /\
   (fits_double (action - 1) = true ->
    exists lo hi x' v'' r d self',
      np_min (x self) = Ok lo /\ np_max (x self) = Ok hi /\
      step_int self action = Ok ((x', v''), r, d, tt, self') /\
      step self action = Ok ((x', v''), r, d, tt, self') /\
      x' = np_clip
             (x0 + np_clip (v0 + IZR (action - 1) * F self
                            - (f self (x0 + delta self) - f self x0)
                              / delta self * g self)
                           (- max_speed self) (max_speed self))
             lo hi)).
Proof.
  intros Hc. split.
  - intros Hs. unfold step_int, get_state. now rewrite Hs.
  - intros x0 v0 Hs. split.
    + intros Hf. unfold step_int, get_state, float_of_int.
      now rewrite Hs, Hf.
    + intros Hf.
      destruct (constructed_extrema self Hc) as (Hlo & Hhi & _).
      pose proof (step_spec self action x0 v0 _ _ Hs Hlo Hhi) as Hstep.
      cbv zeta in Hstep. unfold clamped_velocity in Hstep.
      do 7 eexists.
      split; [exact Hlo|]. split; [exact Hhi|].
      split; [rewrite (step_int_fits self action _ Hs Hf); exact Hstep|].
      split; [exact Hstep | reflexivity].
Qed.

Lemma step_does_not_validate_action_witness :
  exists self0,
    init_default level_curve [0] = Ok self0 /\
    constructed (set_state self0 (0, 0)) /\
    state (set_state self0 (0, 0)) = Some (0, 0) /\
    fits_double (-7 - 1) = true /\
    fits_double (2 ^ 1024 - 1) = false /\
    step_int (set_state self0 (0, 0)) (2 ^ 1024) = Raise OverflowError /\
    exists lo hi x' v'' r d self',
      np_min (x (set_state self0 (0, 0))) = Ok lo /\
      np_max (x (set_state self0 (0, 0))) = Ok hi /\
      step_int (set_state self0 (0, 0)) (-7) = Ok ((x', v''), r, d, tt, self') /\
      step (set_state self0 (0, 0)) (-7) = Ok ((x', v''), r, d, tt, self') /\
      x' = np_clip
             (0 + np_clip (0 + IZR (-7 - 1) * F (set_state self0 (0, 0))
                           - (f (set_state self0 (0, 0))
                                (0 + delta (set_state self0 (0, 0)))
                              - f (set_state self0 (0, 0)) 0)
                             / delta (set_state self0 (0, 0))
                             * g (set_state self0 (0, 0)))
                          (- max_speed (set_state self0 (0, 0)))
                          (max_speed (set_state self0 (0, 0))))
             lo hi.
Proof.
  destruct (init_ok level_curve [0] 500 0.0025 1e-3 1e-12) as [self0 H0];
    [discriminate|].
  pose proof (constructed_init _ _ _ _ _ _ _ H0) as Hc.
  pose proof (constructed_set_state self0 (0, 0) Hc) as Hc1.
  exists self0. split; [exact H0|]. split; [exact Hc1|].
  split; [reflexivity|].
  split; [vm_compute; reflexivity|].
  split; [vm_compute; reflexivity|].
  split.
  - apply (proj1 (proj2 (step_does_not_validate_action
                           (set_state self0 (0, 0)) (2 ^ 1024) Hc1)
                        0 0 eq_refl)).
    vm_compute; reflexivity.
  - apply (proj2 (proj2 (step_does_not_validate_action
                           (set_state self0 (0, 0)) (-7) Hc1)
                        0 0 eq_refl)).
    vm_compute; reflexivity.
Defined.

End StepTheorems.

(** ** More on the hill shape and the control points *)

Section HillShape.

Lemma PI_lt_36 : PI < 3.6.
Proof.
  pose proof (PI_ineq 1) as [_ H].
  unfold sum_f_R0, tg_alt, PI_tg in H. simpl in H. lra.
Qed.

Lemma h_valley : h (- PI / 6) = 0.1.
Proof.
  unfold h. replace (3 * (- PI / 6)) with (- (PI / 2)) by lra.
  rewrite sin_neg, sin_PI2. lra.
Qed.

Lemma h_wall_high : 0.55 < h (-1.2).
Proof.
  unfold h. replace (3 * -1.2) with (- (3.6)) by lra. rewrite sin_neg.
  pose proof PI_lt_36. pose proof PI2_3_2.
  assert (sin 3.6 < 0) by (apply sin_lt_0; lra). lra.
Qed.

(** X1.  The hill shape stays between 0.1 and 1, and the middle local
    point of every hill, at [x = -pi/6], is at its lowest value 0.1; the
    first local point, at [x = -1.2], is above 0.55. *)
Theorem hill_shape_range (angle x0 : R) :
  0.1 <= h x0 <= 1 /\
  nth 1 (get_env_points angle) (0, 0) = (- PI / 6, h (- PI / 6)) /\
  h (- PI / 6) = 0.1 /\
  0.55 < snd (nth 0 (get_env_points angle) (0, 0)).
Proof.
  split; [|split; [reflexivity | split; [apply h_valley | apply h_wall_high]]].
  unfold h. pose proof (SIN_bound (3 * x0)). lra.
Qed.

Lemma slope_bounds :
  0 < (h 0.5 - h (- PI / 6)) / 1.1 < 1.
Proof.
  rewrite h_valley. unfold h.
  replace (3 * 0.5) with 1.5 by lra.
  pose proof PI2_3_2. pose proof (SIN_bound 1.5).
  assert (0 < sin 1.5) by (apply sin_gt_0; lra).
  split.
  - apply Rdiv_lt_0_compat; lra.
  - apply Rmult_lt_reg_r with 1.1; [lra|].
    unfold Rdiv. rewrite Rmult_assoc, Rinv_l by lra. lra.
Qed.

(** X3.  Between -90 and 45 degrees the height of the third local point
    grows strictly with the angle. *)
Theorem calc_height_increasing (a1 a2 : R) :
  -90 <= a1 -> a1 < a2 -> a2 <= 45 ->
  calc_height a1 < calc_height a2.
Proof.
  intros H1 H12 H2. unfold calc_height. cbv zeta.
  pose proof slope_bounds as [Hc0 Hc1].
  set (c := (h 0.5 - h (- PI / 6)) / 1.1) in *.
  assert (Ha0 : 0 < atan c).
  { rewrite <- atan_0. now apply atan_increasing. }
  assert (Ha1 : atan c < PI / 4).
  { rewrite <- atan_1. now apply atan_increasing. }
  pose proof PI_RGT_0 as Hpi.
  assert (Ht : tan (atan c + 2 * a1 * PI / 360)
               < tan (atan c + 2 * a2 * PI / 360)).
  { apply tan_increasing.
    - assert (- (PI / 2) <= 2 * a1 * PI / 360) by nra. lra.
    - assert (2 * a1 * PI / 360 < 2 * a2 * PI / 360) by nra. lra.
    - assert (2 * a2 * PI / 360 <= PI / 4) by nra. lra. }
  lra.
Qed.

Lemma calc_height_increasing_witness :
  -90 <= 0 /\ 0 < 30 /\ 30 <= 45 /\ calc_height 0 < calc_height 30.
Proof.
  split; [lra|]. split; [lra|]. split; [lra|].
  apply (calc_height_increasing 0 30); lra.
Defined.

End HillShape.

(** ** The control points, index by index *)

Section ControlPoints.

Lemma nth_error_length_last {A : Type} (d : A) (l : list A) :
  l <> [] -> nth_error l (length l - 1) = Some (last l d).
Proof.
  induction l as [|b l IH]; [congruence|]. intros _.
  destruct l as [|c l]; [reflexivity|].
  change (last (b :: c :: l) d) with (last (c :: l) d).
  rewrite <- IH by congruence. simpl. now rewrite Nat.sub_0_r.
Qed.

(** The three control points of the hill of index [k]: the point it starts
    from, its valley and its top. *)
Lemma segment_points (angles : list R) (k : nat) (a : R) :
  nth_error angles k = Some a ->
  exists p0 p1 p2,
    nth_error (calc_points angles) (2 * k) = Some p0 /\
    nth_error (calc_points angles) (2 * k + 1) = Some p1 /\
    nth_error (calc_points angles) (2 * k + 2) = Some p2 /\
    fst p1 = fst p0 + (1.2 - PI / 6) /\
    snd p1 = snd p0 + (h (- PI / 6) - h (-1.2)) /\
    fst p2 = fst p0 + 1.7 /\
    snd p2 = snd p0 + (calc_height a - h (-1.2)) /\
    (k = 0%nat -> p0 = (-1.2, h (-1.2))).
Proof.
  intros Hk. apply nth_error_split in Hk.
  destruct Hk as (l1 & l2 & -> & <-).
  destruct l1 as [|b l1].
  - destruct (calc_points_prefix [a] l2) as [t Ht].
    change ([] ++ a :: l2) with ([a] ++ l2). rewrite Ht, calc_points_single.
    exists (-1.2, h (-1.2)), (- PI / 6, h (- PI / 6)), (0.5, calc_height a).
    cbn [length Nat.mul Nat.add get_env_points app nth_error fst snd].
    repeat split; lra.
  - set (before := b :: l1).
    assert (Hne : before <> []) by (unfold before; congruence).
    replace (before ++ a :: l2) with ((before ++ [a]) ++ l2)
      by (rewrite <- app_assoc; reflexivity).
    destruct (calc_points_prefix (before ++ [a]) l2) as [t Ht].
    rewrite Ht, (calc_points_extend before a Hne).
    pose proof (calc_points_length before Hne) as Hlen.
    pose proof (calc_points_nonempty before Hne) as HQ.
    set (Q := calc_points before) in *.
    set (n := length before) in *.
    destruct (last Q (0, 0)) as [lx ly] eqn:El.
    exists (lx, ly),
      (- PI / 6 + (lx - -1.2), h (- PI / 6) + (ly - h (-1.2))),
      (0.5 + (lx - -1.2), calc_height a + (ly - h (-1.2))).
    rewrite <- app_assoc.
    split; [|split; [|split]].
    + rewrite nth_error_app1 by lia.
      replace (2 * n)%nat with (length Q - 1)%nat by lia.
      rewrite (nth_error_length_last (0, 0) Q HQ). now rewrite El.
    + rewrite nth_error_app2 by lia.
      replace (2 * n + 1 - length Q)%nat with 0%nat by lia.
      unfold offset, shift. rewrite El. reflexivity.
    + rewrite nth_error_app2 by lia.
      replace (2 * n + 2 - length Q)%nat with 1%nat by lia.
      unfold offset, shift. rewrite El. reflexivity.
    + cbn [fst snd]. repeat split; try lra.
      intros E. unfold n, before in E. discriminate E.
Qed.

(** X4.  Whatever the angles, every hill of [calc_points] has the same
    horizontal layout and the same drop into its valley: from the point it
    starts from, the valley is [1.2 - pi/6] to the right and
    [h(-1.2) - 0.1 > 0.45] lower, and the top is 1.7 to the right; only
    the height of the top, [calc_height a - h(-1.2)] above the start,
    depends on the hill's angle. *)
Theorem control_point_steps (angles : list R) (k : nat) (a : R) :
  nth_error angles k = Some a ->
  exists p0 p1 p2,
    nth_error (calc_points angles) (2 * k) = Some p0 /\
    nth_error (calc_points angles) (2 * k + 1) = Some p1 /\
    nth_error (calc_points angles) (2 * k + 2) = Some p2 /\
    fst p1 = fst p0 + (1.2 - PI / 6) /\
    snd p1 = snd p0 - (h (-1.2) - 0.1) /\
    snd p1 < snd p0 - 0.45 /\
    fst p2 = fst p0 + 1.7 /\
    snd p2 = snd p0 + (calc_height a - h (-1.2)).
Proof.
  intros Hk.
  destruct (segment_points angles k a Hk)
    as (p0 & p1 & p2 & H0 & H1 & H2 & Hx1 & Hy1 & Hx2 & Hy2 & _).
  exists p0, p1, p2.
  pose proof h_valley. pose proof h_wall_high.
  repeat split; try assumption; lra.
Qed.

Lemma control_point_steps_witness :
  nth_error [0; 30] 1 = Some 30 /\
  exists p0 p1 p2,
    nth_error (calc_points [0; 30]) (2 * 1) = Some p0 /\
    nth_error (calc_points [0; 30]) (2 * 1 + 1) = Some p1 /\
    nth_error (calc_points [0; 30]) (2 * 1 + 2) = Some p2 /\
    fst p1 = fst p0 + (1.2 - PI / 6) /\
    snd p1 = snd p0 - (h (-1.2) - 0.1) /\
    snd p1 < snd p0 - 0.45 /\
    fst p2 = fst p0 + 1.7 /\
    snd p2 = snd p0 + (calc_height 30 - h (-1.2)).
Proof.
  split; [reflexivity|].
  apply (control_point_steps [0; 30] 1 30). reflexivity.
Defined.

Lemma abscissas_at (angles : list R) (k : nat) :
  (k < length angles)%nat ->
  exists p0 p1 p2,
    nth_error (calc_points angles) (2 * k) = Some p0 /\
    nth_error (calc_points angles) (2 * k + 1) = Some p1 /\
    nth_error (calc_points angles) (2 * k + 2) = Some p2 /\
    fst p0 = -1.2 + 1.7 * INR k /\
    fst p1 = - PI / 6 + 1.7 * INR k /\
    fst p2 = 0.5 + 1.7 * INR k.
Proof.
  induction k as [|k IH]; intros Hk.
  - destruct (nth_error angles 0) as [a|] eqn:Ea;
      [|apply nth_error_None in Ea; lia].
    destruct (segment_points angles 0 a Ea)
      as (p0 & p1 & p2 & H0 & H1 & H2 & Hx1 & _ & Hx2 & _ & Hp0).
    exists p0, p1, p2. rewrite (Hp0 eq_refl) in *. cbn [fst] in *.
    change (INR 0) with 0.
    repeat split; try assumption; lra.
  - destruct IH as (q0 & q1 & q2 & _ & _ & G2 & _ & _ & Gx2); [lia|].
    destruct (nth_error angles (S k)) as [a|] eqn:Ea;
      [|apply nth_error_None in Ea; lia].
    destruct (segment_points angles (S k) a Ea)
      as (p0 & p1 & p2 & H0 & H1 & H2 & Hx1 & _ & Hx2 & _).
    replace (2 * S k)%nat with (2 * k + 2)%nat in H0, H1, H2 by lia.
    rewrite G2 in H0. injection H0 as <-.
    exists q2, p1, p2. rewrite S_INR.
    replace (2 * S k)%nat with (2 * k + 2)%nat by lia.
    repeat split; try assumption; lra.
Qed.

(** X5.  The abscissas of the control points are fixed by their index: the
    hill of index [k] starts at [-1.2 + 1.7 k], has its valley at
    [-pi/6 + 1.7 k] and its top at [0.5 + 1.7 k].  So for [N] angles the
    constructor gives [x.min() = -1.2], [x.max() = x[-1] = 0.5 + 1.7 (N - 1)]
    and the peak abscissas [0.5 + 1.7 k], [k < N]. *)
Theorem abscissas_closed_form
    (CubicSpline : spline) (angles : list R) (ms : Z) (gr fo de : R)
    (self : MultiMountainsEnv) :
  init CubicSpline angles ms gr fo de = Ok self ->
  np_min (x self) = Ok (-1.2) /\
  np_max (x self) = Ok (0.5 + 1.7 * INR (length angles - 1)) /\
  getlast (x self) = Ok (0.5 + 1.7 * INR (length angles - 1)) /\
  forall k : nat, (k < length angles)%nat ->
    nth_error (x self) (2 * k) = Some (-1.2 + 1.7 * INR k) /\
    nth_error (x self) (2 * k + 1) = Some (- PI / 6 + 1.7 * INR k) /\
    nth_error (x self) (2 * k + 2) = Some (0.5 + 1.7 * INR k) /\
    nth_error (x_peaks self) k = Some (0.5 + 1.7 * INR k).
Proof.
  intros Hinit.
  pose proof (constructed_init _ _ _ _ _ _ _ Hinit) as Hc.
  destruct (constructed_extrema self Hc) as (Hlo & Hhi & Hlast & _).
  apply init_fields in Hinit.
  destruct Hinit as (Hne & Hx & Hpk & _).
  assert (Hat : forall k, (k < length angles)%nat ->
            nth_error (x self) (2 * k) = Some (-1.2 + 1.7 * INR k) /\
            nth_error (x self) (2 * k + 1) = Some (- PI / 6 + 1.7 * INR k) /\
            nth_error (x self) (2 * k + 2) = Some (0.5 + 1.7 * INR k)).
  { intros k Hk.
    destruct (abscissas_at angles k Hk)
      as (p0 & p1 & p2 & H0 & H1 & H2 & E0 & E1 & E2).
    rewrite Hx, !nth_error_map, H0, H1, H2. cbn [option_map].
    now rewrite E0, E1, E2. }
  assert (Hl : last (x self) 0 = 0.5 + 1.7 * INR (length angles - 1)).
  { assert (Hk : (length angles - 1 < length angles)%nat)
      by (destruct angles; [congruence | simpl; lia]).
    destruct (Hat _ Hk) as (_ & _ & H2).
    pose proof (nth_error_length_last 0 (x self)
                  (constructed_x_nonempty self Hc)) as Hn.
    assert (Hlen : length (x self) = (2 * length angles + 1)%nat)
      by (rewrite Hx, length_map; now apply calc_points_length).
    replace (length (x self) - 1)%nat
      with (2 * (length angles - 1) + 2)%nat in Hn by lia.
    rewrite H2 in Hn. now injection Hn as <-. }
  rewrite Hhi, Hlast, Hl.
  repeat split; try assumption; try (now apply Hat).
  rewrite Hpk. destruct (Hat k H) as (_ & _ & H2).
  rewrite <- H2. unfold from1.
  rewrite (nth_error_nth' (tl (stride2 (x self))) 0).
  - rewrite (nth_error_nth' (x self) 0).
    + f_equal. change (tl (stride2 (x self))) with (from1 (stride2 (x self))).
      rewrite nth_from1, nth_stride2. f_equal. lia.
    + apply nth_error_Some. rewrite H2. discriminate.
  - change (tl (stride2 (x self))) with (from1 (stride2 (x self))).
    rewrite (length_peaks (length angles)); [exact H|].
    rewrite Hx, length_map. now apply calc_points_length.
Qed.

Lemma abscissas_closed_form_witness :
  exists self,
    init_default level_curve [0; 30; -20] = Ok self /\
    np_min (x self) = Ok (-1.2) /\
    np_max (x self) = Ok (0.5 + 1.7 * INR (length [0; 30; -20] - 1)) /\
    getlast (x self) = Ok (0.5 + 1.7 * INR (length [0; 30; -20] - 1)) /\
    forall k : nat, (k < length [0; 30; -20]%R)%nat ->
      nth_error (x self) (2 * k) = Some (-1.2 + 1.7 * INR k) /\
      nth_error (x self) (2 * k + 1) = Some (- PI / 6 + 1.7 * INR k) /\
      nth_error (x self) (2 * k + 2) = Some (0.5 + 1.7 * INR k) /\
      nth_error (x_peaks self) k = Some (0.5 + 1.7 * INR k).
Proof.
  destruct (init_ok level_curve [0; 30; -20] 500 0.0025 1e-3 1e-12)
    as [self H0]; [discriminate|].
  exists self. split; [exact H0|].
  exact (abscissas_closed_form level_curve [0; 30; -20] 500 0.0025 1e-3 1e-12
           self H0).
Defined.

End ControlPoints.

(** ** Reset and the observations *)

Section ResetAndBox.

Lemma linspace_bounds (start stop v : R) (num : nat) :
  start <= stop -> (2 <= num)%nat ->
  In v (linspace start stop num) -> start <= v <= stop.
Proof.
  intros Hle Hnum Hin. unfold linspace in Hin.
  apply in_map_iff in Hin. destruct Hin as (i & <- & Hi).
  apply in_seq in Hi.
  destruct (Nat.eqb i (num - 1)); [lra|].
  assert (HD : 0 < INR (num - 1)) by (apply lt_0_INR; lia).
  assert (Hi0 : 0 <= INR i) by apply pos_INR.
  assert (Hi1 : INR i <= INR (num - 1)) by (apply le_INR; lia).
  set (D := INR (num - 1)) in *. set (q := (stop - start) / D).
  assert (Hq0 : 0 <= q).
  { unfold q, Rdiv. apply Rmult_le_pos; [lra|].
    left. now apply Rinv_0_lt_compat. }
  assert (HqD : D * q = stop - start) by (unfold q; field; lra).
  assert (0 <= INR i * q) by now apply Rmult_le_pos.
  assert (INR i * q <= D * q) by now apply Rmult_le_compat_r.
  lra.
Qed.

(** [argmin_from] returns an index of a least element. *)
Lemma argmin_from_spec (d : R) (a pre : list R) (best : nat) (bestv : R) :
  (best < length pre)%nat -> nth best pre d = bestv ->
  (forall v, In v pre -> bestv <= v) ->
  (argmin_from best bestv (length pre) a < length (pre ++ a))%nat /\
  forall v, In v (pre ++ a) ->
    nth (argmin_from best bestv (length pre) a) (pre ++ a) d <= v.
Proof.
  revert pre best bestv.
  induction a as [|w a IH]; intros pre best bestv Hb Hn Hall.
  - rewrite app_nil_r. cbn [argmin_from]. split; [exact Hb|].
    rewrite Hn. exact Hall.
  - cbn [argmin_from].
    replace (pre ++ w :: a) with ((pre ++ [w]) ++ a)
      by (rewrite <- app_assoc; reflexivity).
    replace (S (length pre)) with (length (pre ++ [w]))
      by (rewrite length_app; simpl; lia).
    destruct (Rltb w bestv) eqn:E.
    + apply Rltb_true in E. apply IH.
      * rewrite length_app. simpl. lia.
      * rewrite app_nth2 by lia. now rewrite Nat.sub_diag.
      * intros v Hv. apply in_app_or in Hv. destruct Hv as [Hv|[<-|[]]].
        -- specialize (Hall v Hv). lra.
        -- lra.
    + apply Rltb_false in E. apply IH.
      * rewrite length_app. simpl. lia.
      * rewrite app_nth1 by lia. exact Hn.
      * intros v Hv. apply in_app_or in Hv. destruct Hv as [Hv|[<-|[]]].
        -- now apply Hall.
        -- exact E.
Qed.

(** The first hill is always the same three abscissas. *)
Lemma constructed_first_hill (self : MultiMountainsEnv) :
  constructed self ->
  exists rest, x self = -1.2 :: - PI / 6 :: 0.5 :: rest.
Proof.
  intros Hc. destruct (constructed_terrain self Hc)
    as (angles & Hne & Hx & _).
  destruct angles as [|a l]; [congruence|].
  destruct (calc_points_prefix [a] l) as [t Ht].
  change (a :: l) with ([a] ++ l) in Hx.
  rewrite Hx, Ht, calc_points_single. eexists. reflexivity.
Qed.

Lemma reset_full (self : MultiMountainsEnv) :
  constructed self ->
  exists xi,
    reset self = Ok ((xi, 0), set_state (set_counter self 0) (xi, 0)) /\
    In xi (linspace (-1.2) 0.5 1024) /\
    forall s, In s (linspace (-1.2) 0.5 1024) -> f self xi <= f self s.
Proof.
  intros Hc. destruct (constructed_first_hill self Hc) as [rest Hx].
  unfold reset.
  change (x (set_counter self 0)) with (x self).
  change (f (set_counter self 0)) with (f self).
  rewrite Hx. unfold getitem at 1 2. cbn [nth_error bind].
  set (xs := linspace (-1.2) 0.5 1024).
  assert (Hxs : length xs = 1024%nat) by apply length_linspace.
  destruct (map (f self) xs) as [|v vs] eqn:Em.
  - apply (f_equal (@length R)) in Em. rewrite length_map, Hxs in Em.
    discriminate Em.
  - cbn [np_argmin bind].
    destruct (argmin_from_spec (f self 0) vs [v] 0 v) as [Hj Hmin].
    + simpl. lia.
    + reflexivity.
    + intros w [<-|[]]. lra.
    + change (length [v]) with 1%nat in *. change ([v] ++ vs) with (v :: vs) in *.
      set (j := argmin_from 0 v 1 vs) in *.
      assert (Hl : (j < length xs)%nat).
      { apply (f_equal (@length R)) in Em. rewrite length_map in Em.
        now rewrite Em. }
      unfold getitem.
      rewrite (nth_error_nth' xs 0 Hl). cbn [bind].
      exists (nth j xs 0). split; [reflexivity|].
      split; [now apply nth_In|].
      intros s Hs. rewrite <- (map_nth (f self) xs 0 j), Em.
      apply Hmin. rewrite <- Em. now apply in_map.
Qed.

(** X6.  On a constructed object [reset] always returns, whatever was
    stored before: it sets the counter to 0 and the velocity to 0, changes
    nothing else, and puts the agent on one of the 1024 samples of the
    first hill [[-1.2, 0.5]], one where the curve is lowest among those
    samples. *)
Theorem reset_minimises (self : MultiMountainsEnv) :
  constructed self ->
  exists xi self',
    reset self = Ok ((xi, 0), self') /\
    self' = with_dyn self 0 (Some (xi, 0)) /\
    In xi (linspace (-1.2) 0.5 1024) /\
    -1.2 <= xi <= 0.5 /\
    forall s, In s (linspace (-1.2) 0.5 1024) -> f self xi <= f self s.
Proof.
  intros Hc. destruct (reset_full self Hc) as (xi & Hr & Hin & Hmin).
  exists xi, (set_state (set_counter self 0) (xi, 0)).
  split; [exact Hr|]. split; [reflexivity|]. split; [exact Hin|].
  split; [|exact Hmin].
  apply (linspace_bounds (-1.2) 0.5 xi 1024); [lra | lia | exact Hin].
Qed.

Lemma reset_minimises_witness :
  exists self0,
    init_default level_curve [0] = Ok self0 /\
    constructed (set_state self0 (0.3, 0.05)) /\
    exists xi self',
      reset (set_state self0 (0.3, 0.05)) = Ok ((xi, 0), self') /\
      self' = with_dyn (set_state self0 (0.3, 0.05)) 0 (Some (xi, 0)) /\
      In xi (linspace (-1.2) 0.5 1024) /\
      -1.2 <= xi <= 0.5 /\
      forall s, In s (linspace (-1.2) 0.5 1024) ->
        f (set_state self0 (0.3, 0.05)) xi <= f (set_state self0 (0.3, 0.05)) s.
Proof.
  destruct (init_ok level_curve [0] 500 0.0025 1e-3 1e-12) as [self0 H0];
    [discriminate|].
  pose proof (constructed_init _ _ _ _ _ _ _ H0) as Hc.
  exists self0. split; [exact H0|].
  split; [exact (constructed_set_state self0 (0.3, 0.05) Hc)|].
  exact (reset_minimises (set_state self0 (0.3, 0.05))
           (constructed_set_state self0 (0.3, 0.05) Hc)).
Defined.

(** What [reset] and [step] leave alone. *)
Lemma reachable_static (self0 self : MultiMountainsEnv) :
  constructed self0 -> reachable self0 self ->
  self = with_dyn self0 (counter self) (state self).
Proof.
  intros Hc Hr.
  induction Hr as [obs self1 Hreset
                  | self action obs r d self' Hr IH Ha Hstep].
  - destruct (reset_full self0 Hc) as (xi & Hxi & _).
    rewrite Hxi in Hreset. injection Hreset as _ <-. reflexivity.
  - destruct (reachable_constructed self0 self Hc Hr) as [Hcs [[x0 v0] Hs]].
    destruct (constructed_extrema self Hcs) as (Hlo & Hhi & _).
    rewrite (step_spec self action x0 v0 _ _ Hs Hlo Hhi) in Hstep.
    injection Hstep as _ _ _ <-.
    rewrite IH at 1. reflexivity.
Qed.

(** X7.  [reset] forgets the episode: after any sequence of steps it
    returns the same observation as the first [reset] did, with the
    counter back at 0. *)
Theorem reset_forgets_history
    (self0 self s1 : MultiMountainsEnv) (obs0 : R * R) :
  constructed self0 -> reset self0 = Ok (obs0, s1) -> reachable self0 self ->
  exists self',
    reset self = Ok (obs0, self') /\ counter self' = 0%Z /\
    state self' = Some obs0 /\ self' = s1.
Proof.
  intros Hc H0 Hr.
  pose proof (reachable_static self0 self Hc Hr) as Hst.
  assert (E : reset self = reset self0).
  { rewrite Hst. reflexivity. }
  exists s1. rewrite E. split; [exact H0|].
  destruct (reset_full self0 Hc) as (xi & Hxi & _).
  rewrite Hxi in H0. injection H0 as <- <-. repeat split.
Qed.

Lemma reset_forgets_history_witness :
  exists self0 obs0 s1 obs r d self,
    init_default level_curve [0] = Ok self0 /\
    constructed self0 /\ reset self0 = Ok (obs0, s1) /\
    step s1 2 = Ok (obs, r, d, tt, self) /\ reachable self0 self /\
    exists self',
      reset self = Ok (obs0, self') /\ counter self' = 0%Z /\
      state self' = Some obs0 /\ self' = s1.
Proof.
  destruct (init_ok level_curve [0] 500 0.0025 1e-3 1e-12) as [self0 H0];
    [discriminate|].
  pose proof (constructed_init _ _ _ _ _ _ _ H0) as Hc.
  destruct (reset_full self0 Hc) as (xi & Hxi & _).
  pose proof (reach_reset self0 _ _ Hxi) as Hr1.
  destruct (reachable_constructed self0 _ Hc Hr1) as [Hc1 _].
  destruct (constructed_extrema _ Hc1) as (Hlo & Hhi & _).
  pose proof (step_spec (set_state (set_counter self0 0) (xi, 0)) 2 xi 0
                _ _ eq_refl Hlo Hhi) as Hstep.
  cbv zeta in Hstep.
  assert (Ha : (0 <= 2 <= 2)%Z) by lia.
  pose proof (reach_step self0 _ 2 _ _ _ _ Hr1 Ha Hstep) as Hr2.
  exists self0, (xi, 0), (set_state (set_counter self0 0) (xi, 0)).
  do 4 eexists.
  split; [exact H0|]. split; [exact Hc|]. split; [exact Hxi|].
  split; [exact Hstep|]. split; [exact Hr2|].
  exact (reset_forgets_history self0 _ _ (xi, 0) Hc Hxi Hr2).
Defined.

Lemma init_box (CubicSpline : spline) (angles : list R) (ms : Z)
    (gr fo de : R) (self0 : MultiMountainsEnv) :
  init CubicSpline angles ms gr fo de = Ok self0 ->
  exists lo hi,
    np_min (x self0) = Ok lo /\ np_max (x self0) = Ok hi /\
    low self0 = (lo, - (0.07)) /\ high self0 = (hi, 0.07) /\
    x_curve self0 = linspace lo hi 1024 /\
    y_curve self0 = map (f self0) (x_curve self0).
Proof.
  unfold init. intros H.
  destruct (calc_points angles) as [|p ps]; [discriminate|].
  cbn [map np_min np_max bind] in H.
  set (xc := linspace _ _ _) in H.
  apply (f_equal (fun r => match r with Ok a => a | Raise _ => self0 end)) in H.
  subst self0. cbn [x low high x_curve y_curve f np_min np_max].
  do 2 eexists. repeat split.
Qed.

Lemma constructed_box (self : MultiMountainsEnv) :
  constructed self ->
  low self = (-1.2, - (0.07)) /\
  high self = (last (x self) 0, 0.07) /\
  y_curve self = map (f self) (linspace (-1.2) (last (x self) 0) 1024).
Proof.
  intros Hc. destruct (constructed_extrema self Hc) as (Hlo & Hhi & _).
  destruct Hc as (sp & angles & ms & gr & fo & de & self0 & Hinit & Hself).
  destruct (init_box _ _ _ _ _ _ _ Hinit)
    as (lo & hi & Hlo0 & Hhi0 & Hl & Hh & Hxc & Hyc).
  rewrite Hself in Hlo, Hhi |- *.
  cbn [with_dyn x low high y_curve f] in *.
  rewrite Hlo0 in Hlo. rewrite Hhi0 in Hhi.
  injection Hlo as ->. injection Hhi as ->.
  rewrite Hl, Hh, Hyc, Hxc. repeat split.
Qed.

Lemma reachable_bounds (self0 self : MultiMountainsEnv) :
  constructed self0 -> reachable self0 self ->
  exists xs v,
    state self = Some (xs, v) /\
    -1.2 <= xs <= last (x self) 0 /\ - (0.07) <= v <= 0.07.
Proof.
  intros Hc Hr.
  induction Hr as [obs self1 Hreset
                  | self action obs r d self' Hr IH Ha Hstep].
  - destruct (reset_full self0 Hc) as (xi & Hxi & Hin & _).
    rewrite Hxi in Hreset. injection Hreset as _ <-.
    exists xi, 0. split; [reflexivity|].
    pose proof (linspace_bounds (-1.2) 0.5 xi 1024) as Hb.
    assert (Hxi' : -1.2 <= xi <= 0.5) by (apply Hb; [lra | lia | exact Hin]).
    change (x (set_state (set_counter self0 0) (xi, 0))) with (x self0).
    destruct (constructed_first_hill self0 Hc) as [rest Hx].
    destruct (constructed_terrain self0 Hc) as (_ & _ & _ & _ & _ & Hs & _).
    pose proof (sorted_all_le_last _ Hs) as Hall.
    rewrite Forall_forall in Hall.
    assert (0.5 <= last (x self0) 0).
    { apply Hall. rewrite Hx. right; right; left; reflexivity. }
    lra.
  - destruct (reachable_constructed self0 self Hc Hr) as [Hcs _].
    destruct IH as (x0 & v0 & Hs & _).
    destruct (constructed_extrema self Hcs) as (Hlo & Hhi & _).
    destruct (constructed_terrain self Hcs) as (_ & _ & _ & _ & Hms & _).
    rewrite (step_spec self action x0 v0 _ _ Hs Hlo Hhi) in Hstep.
    cbv zeta in Hstep. injection Hstep as _ _ _ <-.
    do 2 eexists. split; [reflexivity|].
    change (x (set_counter (set_state self _) _)) with (x self).
    split.
    + apply np_clip_bounds. exact (np_min_le_max _ _ _ Hlo Hhi).
    + assert (Hv : - max_speed self <= clamped_velocity self x0 v0 action
                   <= max_speed self).
      { unfold clamped_velocity. apply np_clip_bounds. lra. }
      rewrite Hms in Hv.
      match goal with |- _ <= (if ?b then _ else _) <= _ => destruct b end; lra.
Qed.

(** X8.  The declared observation box is [low = (-1.2, -0.07)] and
    [high = (x[-1], 0.07)], and every state that [reset] or [step] stores
    and returns lies in it, component by component. *)
Theorem observations_in_box (self0 self : MultiMountainsEnv) :
  constructed self0 -> reachable self0 self ->
  exists xs v,
    state self = Some (xs, v) /\
    low self = (-1.2, - (0.07)) /\
    high self = (last (x self) 0, 0.07) /\
    fst (low self) <= xs <= fst (high self) /\
    snd (low self) <= v <= snd (high self).
Proof.
  intros Hc Hr.
  destruct (reachable_constructed self0 self Hc Hr) as [Hcs _].
  destruct (reachable_bounds self0 self Hc Hr) as (xs & v & Hs & Hx & Hv).
  destruct (constructed_box self Hcs) as (Hl & Hh & _).
  exists xs, v. rewrite Hl, Hh. cbn [fst snd].
  repeat split; try assumption; lra.
Qed.

Lemma observations_in_box_witness :
  exists self0 obs self,
    init_default level_curve [0] = Ok self0 /\
    constructed self0 /\ reset self0 = Ok (obs, self) /\
    reachable self0 self /\
    exists xs v,
      state self = Some (xs, v) /\
      low self = (-1.2, - (0.07)) /\
      high self = (last (x self) 0, 0.07) /\
      fst (low self) <= xs <= fst (high self) /\
      snd (low self) <= v <= snd (high self).
Proof.
  destruct (init_ok level_curve [0] 500 0.0025 1e-3 1e-12) as [self0 H0];
    [discriminate|].
  pose proof (constructed_init _ _ _ _ _ _ _ H0) as Hc.
  destruct (reset_full self0 Hc) as (xi & Hxi & _).
  exists self0, (xi, 0), (set_state (set_counter self0 0) (xi, 0)).
  split; [exact H0|]. split; [exact Hc|]. split; [exact Hxi|].
  split; [exact (reach_reset self0 _ _ Hxi)|].
  exact (observations_in_box self0 _ Hc (reach_reset self0 _ _ Hxi)).
Defined.

(** X9.  A step moves the agent by at most [v_max = 0.07]: from a reached
    state, for every integer action, the new position is within 0.07 of
    the previous one. *)
Theorem step_displacement (self0 self self' : MultiMountainsEnv)
    (action : Z) (x0 v0 x1 v1 : R) (r : Z) (d : bool) :
  constructed self0 -> reachable self0 self ->
  state self = Some (x0, v0) ->
  step self action = Ok ((x1, v1), r, d, tt, self') ->
  Rabs (x1 - x0) <= 0.07.
Proof.
  intros Hc Hr Hs Hstep.
  destruct (reachable_constructed self0 self Hc Hr) as [Hcs _].
  destruct (reachable_bounds self0 self Hc Hr) as (x0' & v0' & Hs' & Hx & _).
  rewrite Hs in Hs'. injection Hs' as <- <-.
  destruct (constructed_extrema self Hcs) as (Hlo & Hhi & _).
  destruct (constructed_terrain self Hcs) as (_ & _ & _ & _ & Hms & _).
  rewrite (step_spec self action x0 v0 _ _ Hs Hlo Hhi) in Hstep.
  cbv zeta in Hstep. injection Hstep as <- _ _ _ _.
  assert (Hv : - max_speed self <= clamped_velocity self x0 v0 action
               <= max_speed self).
  { unfold clamped_velocity. apply np_clip_bounds. lra. }
  rewrite Hms in Hv.
  set (v' := clamped_velocity self x0 v0 action) in *.
  apply Rabs_le. unfold np_clip, Rmin, Rmax.
  destruct (Rle_dec (x0 + v') (-1.2));
    destruct (Rle_dec _ (last (x self) 0)); lra.
Qed.

Lemma step_displacement_witness :
  exists self0 xi self x1 v1 r d self',
    init_default level_curve [0] = Ok self0 /\
    constructed self0 /\ reachable self0 self /\
    state self = Some (xi, 0) /\
    step self 7 = Ok ((x1, v1), r, d, tt, self') /\
    Rabs (x1 - xi) <= 0.07.
Proof.
  destruct (init_ok level_curve [0] 500 0.0025 1e-3 1e-12) as [self0 H0];
    [discriminate|].
  pose proof (constructed_init _ _ _ _ _ _ _ H0) as Hc.
  destruct (reset_full self0 Hc) as (xi & Hxi & _).
  pose proof (reach_reset self0 _ _ Hxi) as Hr1.
  destruct (reachable_constructed self0 _ Hc Hr1) as [Hc1 _].
  destruct (constructed_extrema _ Hc1) as (Hlo & Hhi & _).
  pose proof (step_spec (set_state (set_counter self0 0) (xi, 0)) 7 xi 0
                _ _ eq_refl Hlo Hhi) as Hstep.
  cbv zeta in Hstep.
  exists self0, xi, (set_state (set_counter self0 0) (xi, 0)).
  do 5 eexists.
  split; [exact H0|]. split; [exact Hc|]. split; [exact Hr1|].
  split; [reflexivity|]. split; [exact Hstep|].
  exact (step_displacement self0 _ _ 7 xi 0 _ _ _ _ Hc Hr1 eq_refl Hstep).
Defined.

End ResetAndBox.

(** ** Rewards, episodes and the first use of an object *)

Section Episodes.

Lemma last_stride2_odd {A : Type} (d : A) (n : nat) (a : list A) :
  length a = (2 * n + 1)%nat -> last (stride2 a) d = last a d.
Proof.
  revert a; induction n as [|n IH]; intros a Ha.
  - destruct a as [|a0 [|a1 a]]; simpl in Ha; try lia. reflexivity.
  - destruct a as [|a0 [|a1 a]]; simpl in Ha; try lia.
    assert (Hl : length a = (2 * n + 1)%nat) by lia.
    specialize (IH a Hl).
    destruct a as [|a2 a]; [simpl in Hl; lia|].
    change (stride2 (a0 :: a1 :: a2 :: a)) with (a0 :: stride2 (a2 :: a)).
    change (last (a0 :: a1 :: a2 :: a) d) with (last (a2 :: a) d).
    rewrite <- IH. reflexivity.
Qed.

(** The last peak is the last control point. *)
Lemma last_peak_is_goal (self : MultiMountainsEnv) :
  constructed self ->
  x_peaks self <> [] /\ last (x_peaks self) 0 = last (x self) 0.
Proof.
  intros Hc. destruct (constructed_terrain self Hc)
    as (angles & Hne & _ & Hpk & _ & _ & Hlen).
  pose proof (length_stride2 _ _ Hlen) as Hl2.
  pose proof (last_stride2_odd 0 _ _ Hlen) as Hlast.
  rewrite Hpk. destruct (stride2 (x self)) as [|s0 [|s1 s]].
  - simpl in Hl2. lia.
  - simpl in Hl2. destruct angles; [congruence | simpl in Hl2; lia].
  - split; [discriminate|]. rewrite <- Hlast. reflexivity.
Qed.

Lemma Exists_removelast (P : R -> Prop) (l : list R) :
  l <> [] -> ~ P (last l 0) ->
  (Exists P l <-> Exists P (removelast l)).
Proof.
  intros Hne Hn. rewrite (app_removelast_last 0 Hne) at 1.
  rewrite Exists_app. split.
  - intros [H|H]; [exact H|].
    inversion H as [? ? H1|? ? H1]; [contradiction | inversion H1].
  - intros H. now left.
Qed.

(** X10.  The last peak is the goal [x_max], which the clamped position
    never passes: a step from a reached state is rewarded [+5] exactly when
    it crosses one of the other peaks upwards, [-5] exactly when it crosses
    one of them downwards, and [-1] otherwise.  With a single angle there
    is no other peak and every reward is [-1]. *)
Theorem goal_peak_never_rewarded (self0 self self' : MultiMountainsEnv)
    (action : Z) (x0 v0 x1 v1 : R) (r : Z) (d : bool) :
  constructed self0 -> reachable self0 self ->
  state self = Some (x0, v0) ->
  step self action = Ok ((x1, v1), r, d, tt, self') ->
  (r = 5%Z <->
   Exists (fun pk => x0 < pk /\ x1 > pk) (removelast (x_peaks self))) /\
  (r = (-5)%Z <->
   Exists (fun pk => x0 > pk /\ x1 < pk) (removelast (x_peaks self))) /\
  (r = 5%Z \/ r = (-5)%Z \/ r = (-1)%Z) /\
  (length (x_peaks self) = 1%nat -> r = (-1)%Z).
Proof.
  intros Hc Hr Hs Hstep.
  destruct (reachable_constructed self0 self Hc Hr) as [Hcs _].
  destruct (reachable_bounds self0 self Hc Hr) as (x0' & v0' & Hs' & Hx & _).
  rewrite Hs in Hs'. injection Hs' as <- <-.
  destruct (constructed_extrema self Hcs) as (Hlo & Hhi & _ & Hlt).
  destruct (last_peak_is_goal self Hcs) as [Hne Hlast].
  rewrite (step_spec self action x0 v0 _ _ Hs Hlo Hhi) in Hstep.
  cbv zeta in Hstep. injection Hstep as Hx1 _ Hrw _ _.
  assert (Hx1b : x1 <= last (x self) 0).
  { rewrite <- Hx1. apply np_clip_bounds. lra. }
  rewrite Hx1 in Hrw. unfold reward in Hrw.
  change (x_peaks (set_counter (set_state self _) _)) with (x_peaks self) in Hrw.
  pose proof (existsb_up (x_peaks self) x0 x1) as Hup.
  pose proof (existsb_down (x_peaks self) x0 x1) as Hdown.
  rewrite (Exists_removelast _ _ Hne) in Hup by (rewrite Hlast; lra).
  rewrite (Exists_removelast _ _ Hne) in Hdown by (rewrite Hlast; lra).
  assert (Hex : Exists (fun pk => x0 < pk /\ x1 > pk) (removelast (x_peaks self)) ->
                Exists (fun pk => x0 > pk /\ x1 < pk) (removelast (x_peaks self)) ->
                False).
  { rewrite !Exists_exists. intros [u [_ Hu]] [w [_ Hw]]. lra. }
  assert (Hone : length (x_peaks self) = 1%nat -> removelast (x_peaks self) = []).
  { destruct (x_peaks self) as [|p0 [|p1 ps]]; simpl; intros; try lia.
    reflexivity. }
  destruct (existsb (fun pk => Rltb pk x1 && Rltb x0 pk) (x_peaks self));
    destruct (existsb (fun pk => Rltb x1 pk && Rltb pk x0) (x_peaks self));
    subst r.
  - exfalso. apply Hex; [now apply Hup | now apply Hdown].
  - split; [|split; [|split]].
    + split; [intros _; now apply Hup | reflexivity].
    + split; [discriminate|]. intros H. apply Hdown in H. discriminate.
    + now left.
    + intros H1. rewrite (Hone H1) in Hup.
      destruct Hup as [Hup _]. specialize (Hup eq_refl). inversion Hup.
  - split; [|split; [|split]].
    + split; [discriminate|]. intros H. apply Hup in H. discriminate.
    + split; [intros _; now apply Hdown | reflexivity].
    + right; now left.
    + intros H1. rewrite (Hone H1) in Hdown.
      destruct Hdown as [Hdown _]. specialize (Hdown eq_refl). inversion Hdown.
  - split; [|split; [|split]].
    + split; [discriminate|]. intros H. apply Hup in H. discriminate.
    + split; [discriminate|]. intros H. apply Hdown in H. discriminate.
    + right; now right.
    + reflexivity.
Qed.

Lemma goal_peak_never_rewarded_witness :
  exists self0 xi self x1 v1 r d self',
    init_default level_curve [0] = Ok self0 /\
    constructed self0 /\ reachable self0 self /\
    state self = Some (xi, 0) /\
    step self 2 = Ok ((x1, v1), r, d, tt, self') /\
    length (x_peaks self) = 1%nat /\
    r = (-1)%Z.
Proof.
  destruct (init_ok level_curve [0] 500 0.0025 1e-3 1e-12) as [self0 H0];
    [discriminate|].
  destruct (one_hill_facts self0 H0) as (Hc & _ & Hpk & _).
  destruct (reset_full self0 Hc) as (xi & Hxi & _).
  pose proof (reach_reset self0 _ _ Hxi) as Hr1.
  destruct (reachable_constructed self0 _ Hc Hr1) as [Hc1 _].
  destruct (constructed_extrema _ Hc1) as (Hlo & Hhi & _).
  pose proof (step_spec (set_state (set_counter self0 0) (xi, 0)) 2 xi 0
                _ _ eq_refl Hlo Hhi) as Hstep.
  cbv zeta in Hstep.
  assert (Hone : length (x_peaks (set_state (set_counter self0 0) (xi, 0)))
                 = 1%nat).
  { change (x_peaks (set_state (set_counter self0 0) (xi, 0)))
      with (x_peaks self0). now rewrite Hpk. }
  exists self0, xi, (set_state (set_counter self0 0) (xi, 0)).
  do 5 eexists.
  split; [exact H0|]. split; [exact Hc|]. split; [exact Hr1|].
  split; [reflexivity|]. split; [exact Hstep|]. split; [exact Hone|].
  exact (proj2 (proj2 (proj2
           (goal_peak_never_rewarded self0 _ _ 2 xi 0 _ _ _ _
              Hc Hr1 eq_refl Hstep))) Hone).
Defined.

(** X11.  Stepping does not stop by itself: from any assigned state of a
    constructed object, [n] successive [step] calls with integer actions
    that convert to a float (each [action - 1] below [2^1024 - 2^970] in
    absolute value) all return; the counter grows by exactly [n], also
    past [max_step]; and the call of index [k] reports [done] exactly when
    the counter reaches [max_step] at that call or the position it stores
    is at least [x_max]. *)
Theorem run_counts (self : MultiMountainsEnv) (s : R * R) (actions : list Z) :
  constructed self -> state self = Some s ->
  Forall (fun a => fits_double (a - 1) = true) actions ->
  exists outs self',
    run self actions = Ok (outs, self') /\
    length outs = length actions /\
    counter self' = (counter self + Z.of_nat (length actions))%Z /\
    constructed self' /\
    forall k obs r d, nth_error outs k = Some (obs, r, d) ->
      d = Z.eqb (counter self + Z.of_nat k + 1) (max_step self)
          || Rleb (last (x self) 0) (fst obs).
Proof.
  revert self s. induction actions as [|a rest IH]; intros self s Hc Hs Hfit.
  - exists [], self. cbn [run length Z.of_nat].
    repeat split; try assumption; try lia.
    intros k obs r d Hk. destruct k; discriminate Hk.
  - destruct s as [x0 v0].
    apply Forall_inv_tail in Hfit.
    destruct (constructed_extrema self Hc) as (Hlo & Hhi & _).
    pose proof (step_spec self a x0 v0 _ _ Hs Hlo Hhi) as Hstep.
    cbv zeta in Hstep.
    set (v' := clamped_velocity self x0 v0 a) in *.
    set (x' := np_clip (x0 + v') (-1.2) (last (x self) 0)) in *.
    set (v'' := if Rleb x' (-1.2) && Rltb v' 0 then 1e-2 else v') in *.
    set (self1 := set_counter (set_state self (x', v'')) (counter self + 1)) in *.
    assert (Hc1 : constructed self1)
      by (apply constructed_set_counter, constructed_set_state; exact Hc).
    destruct (IH self1 (x', v'') Hc1 eq_refl Hfit)
      as (outs & self' & Hrun & Hlen & Hcnt & Hc' & Hd).
    eexists. exists self'.
    cbn [run]. rewrite Hstep. cbn [bind]. rewrite Hrun. cbn [bind].
    split; [reflexivity|].
    split; [cbn [length]; now rewrite Hlen|].
    split.
    { rewrite Hcnt. change (counter self1) with (counter self + 1)%Z.
      cbn [length]. lia. }
    split; [exact Hc'|].
    intros k obs r d Hk. destruct k as [|k].
    + cbn [nth_error] in Hk. injection Hk as <- _ <-.
      cbn [fst Z.of_nat]. now rewrite Z.add_0_r.
    + cbn [nth_error] in Hk. rewrite (Hd k obs r d Hk).
      change (counter self1) with (counter self + 1)%Z.
      change (max_step self1) with (max_step self).
      change (x self1) with (x self).
      do 2 f_equal. lia.
Qed.

Lemma run_counts_witness :
  exists self0,
    init_default level_curve [0] = Ok self0 /\
    constructed (set_state self0 (0%R, 0%R)) /\
    state (set_state self0 (0%R, 0%R)) = Some (0%R, 0%R) /\
    Forall (fun a => fits_double (a - 1) = true) [2; 2; 0; 9]%Z /\
    exists outs self',
      run (set_state self0 (0%R, 0%R)) [2; 2; 0; 9]%Z = Ok (outs, self') /\
      length outs = length [2; 2; 0; 9]%Z /\
      counter self'
      = (counter (set_state self0 (0%R, 0%R))
         + Z.of_nat (length [2; 2; 0; 9]%Z))%Z /\
      constructed self' /\
      forall k obs r d, nth_error outs k = Some (obs, r, d) ->
        d = Z.eqb (counter (set_state self0 (0%R, 0%R)) + Z.of_nat k + 1)
                  (max_step (set_state self0 (0%R, 0%R)))
            || Rleb (last (x (set_state self0 (0%R, 0%R))) 0) (fst obs).
Proof.
  destruct (init_ok level_curve [0] 500 0.0025 1e-3 1e-12) as [self0 H0];
    [discriminate|].
  pose proof (constructed_init _ _ _ _ _ _ _ H0) as Hc.
  assert (Hfit : Forall (fun a => fits_double (a - 1) = true) [2; 2; 0; 9]%Z)
    by (repeat constructor).
  exists self0. split; [exact H0|].
  split; [exact (constructed_set_state self0 (0, 0) Hc)|].
  split; [reflexivity|]. split; [exact Hfit|].
  exact (run_counts (set_state self0 (0, 0)) (0, 0) [2; 2; 0; 9]%Z
           (constructed_set_state self0 (0, 0) Hc) eq_refl Hfit).
Defined.

Lemma fold_min_lower (l : list R) (a v : R) :
  In v (a :: l) -> fold_left Rmin l a <= v.
Proof.
  revert a; induction l as [|b l IH]; intros a Hin.
  - destruct Hin as [<-|[]]. simpl. lra.
  - cbn [fold_left]. destruct Hin as [<-|[<-|Hin]].
    + pose proof (fold_min_le l (Rmin a b)). pose proof (Rmin_l a b). lra.
    + pose proof (fold_min_le l (Rmin a b)). pose proof (Rmin_r a b). lra.
    + apply IH. now right.
Qed.

Lemma fold_max_upper (l : list R) (a v : R) :
  In v (a :: l) -> v <= fold_left Rmax l a.
Proof.
  revert a; induction l as [|b l IH]; intros a Hin.
  - destruct Hin as [<-|[]]. simpl. lra.
  - cbn [fold_left]. destruct Hin as [<-|[<-|Hin]].
    + pose proof (fold_max_ge l (Rmax a b)). pose proof (Rmax_l a b). lra.
    + pose proof (fold_max_ge l (Rmax a b)). pose proof (Rmax_r a b). lra.
    + apply IH. now right.
Qed.

(** X12.  On a constructed object [get_radius] returns, and its result is
    [(y_max - y_min) / 25 >= 0], where [y_min] and [y_max] bound the curve
    on each of the 1024 samples of [[x_min, x_max]]; the absolute value in
    the source changes nothing. *)
Theorem get_radius_spec (self : MultiMountainsEnv) :
  constructed self ->
  exists y_lo y_hi,
    np_min (y_curve self) = Ok y_lo /\ np_max (y_curve self) = Ok y_hi /\
    get_radius self = Ok ((y_hi - y_lo) / 25) /\
    0 <= (y_hi - y_lo) / 25 /\
    forall s, In s (linspace (-1.2) (last (x self) 0) 1024) ->
      y_lo <= f self s <= y_hi.
Proof.
  intros Hc. destruct (constructed_box self Hc) as (_ & _ & Hy).
  unfold get_radius. cbv zeta. rewrite Hy.
  set (xs := linspace (-1.2) (last (x self) 0) 1024).
  assert (Hxs : length xs = 1024%nat) by apply length_linspace.
  destruct (map (f self) xs) as [|v vs] eqn:Em.
  - apply (f_equal (@length R)) in Em. rewrite length_map, Hxs in Em.
    discriminate Em.
  - cbn [np_max np_min bind].
    pose proof (fold_min_le vs v). pose proof (fold_max_ge vs v).
    exists (fold_left Rmin vs v), (fold_left Rmax vs v).
    split; [reflexivity|]. split; [reflexivity|].
    split; [|split].
    + rewrite Rabs_right by lra. reflexivity.
    + lra.
    + intros s0 Hs0.
      assert (Hin : In (f self s0) (v :: vs))
        by (rewrite <- Em; now apply in_map).
      split; [now apply fold_min_lower | now apply fold_max_upper].
Qed.

Lemma get_radius_spec_witness :
  exists self0,
    init_default level_curve [0; 30] = Ok self0 /\
    constructed self0 /\
    exists y_lo y_hi,
      np_min (y_curve self0) = Ok y_lo /\ np_max (y_curve self0) = Ok y_hi /\
      get_radius self0 = Ok ((y_hi - y_lo) / 25) /\
      0 <= (y_hi - y_lo) / 25 /\
      forall s, In s (linspace (-1.2) (last (x self0) 0) 1024) ->
        y_lo <= f self0 s <= y_hi.
Proof.
  destruct (init_ok level_curve [0; 30] 500 0.0025 1e-3 1e-12) as [self0 H0];
    [discriminate|].
  pose proof (constructed_init _ _ _ _ _ _ _ H0) as Hc.
  exists self0. split; [exact H0|]. split; [exact Hc|].
  exact (get_radius_spec self0 Hc).
Defined.

(** X13.  On an empty angle sequence the constructor raises
    [IndexError].  An object the constructor returns has its counter at 0
    and no state: [step] raises [AttributeError] for every action, and so
    does [done()] unless [max_step] is 0, where it answers true; [reset]
    returns, and from then on [step] returns for every integer action
    whose [action - 1] converts to a float. *)
Theorem constructor_protocol (CubicSpline : spline) (angles : list R)
    (ms : Z) (gr fo de : R) :
  init CubicSpline [] ms gr fo de = Raise IndexError /\
  forall self, init CubicSpline angles ms gr fo de = Ok self ->
    angles <> [] /\ counter self = 0%Z /\ state self = None /\
    (forall a, step_int self a = Raise AttributeError) /\
    done self = (if Z.eqb 0 ms then Ok true else Raise AttributeError) /\
    exists xi self1,
      reset self = Ok ((xi, 0), self1) /\
      forall a, fits_double (a - 1) = true ->
        exists out, step_int self1 a = Ok out /\ step self1 a = Ok out.
Proof.
  split; [apply init_empty|]. intros self H0.
  pose proof (constructed_init _ _ _ _ _ _ _ H0) as Hc.
  destruct (init_fields _ _ _ _ _ _ _ H0)
    as (Hne & _ & _ & _ & _ & _ & _ & _ & _ & Hms & Hcnt & Hst).
  split; [exact Hne|]. split; [exact Hcnt|]. split; [exact Hst|].
  split.
  { intros a. unfold step_int, get_state. now rewrite Hst. }
  split.
  - unfold done, is_goal_reached, get_state. rewrite Hcnt, Hms, Hst.
    destruct (Z.eqb 0 ms); reflexivity.
  - destruct (reset_full self Hc) as (xi & Hxi & _).
    exists xi, (set_state (set_counter self 0) (xi, 0)).
    split; [exact Hxi|]. intros a Hfit.
    assert (Hc1 : constructed (set_state (set_counter self 0) (xi, 0)))
      by (apply constructed_set_state, constructed_set_counter; exact Hc).
    destruct (constructed_extrema _ Hc1) as (Hlo & Hhi & _).
    eexists. split.
    + rewrite (step_int_fits (set_state (set_counter self 0) (xi, 0)) a
                 (xi, 0) eq_refl Hfit).
      exact (step_spec (set_state (set_counter self 0) (xi, 0)) a xi 0 _ _
               eq_refl Hlo Hhi).
    + exact (step_spec (set_state (set_counter self 0) (xi, 0)) a xi 0 _ _
               eq_refl Hlo Hhi).
Qed.

Lemma constructor_protocol_witness :
  exists self,
    init_default level_curve [0; 30] = Ok self /\
    [0; 30] <> [] /\ counter self = 0%Z /\ state self = None /\
    (forall a, step_int self a = Raise AttributeError) /\
    done self = Raise AttributeError /\
    exists xi self1,
      reset self = Ok ((xi, 0), self1) /\
      forall a, fits_double (a - 1) = true ->
        exists out, step_int self1 a = Ok out /\ step self1 a = Ok out.
Proof.
  destruct (init_ok level_curve [0; 30] 500 0.0025 1e-3 1e-12) as [self H0];
    [discriminate|].
  exists self. split; [exact H0|].
  exact (proj2 (constructor_protocol level_curve [0; 30] 500 0.0025 1e-3 1e-12)
           self H0).
Defined.

End Episodes.

(** ** How far an episode can go *)

Section Travel.

Lemma step_move (self : MultiMountainsEnv) (action : Z) (x0 v0 : R) :
  constructed self -> state self = Some (x0, v0) ->
  -1.2 <= x0 <= last (x self) 0 ->
  exists x1 v1 r d self1,
    step self action = Ok ((x1, v1), r, d, tt, self1) /\
    constructed self1 /\ state self1 = Some (x1, v1) /\
    x self1 = x self /\
    -1.2 <= x1 <= last (x self) 0 /\ Rabs (x1 - x0) <= 0.07.
Proof.
  intros Hc Hs Hx.
  destruct (constructed_extrema self Hc) as (Hlo & Hhi & _).
  destruct (constructed_terrain self Hc) as (_ & _ & _ & _ & Hms & _).
  pose proof (step_spec self action x0 v0 _ _ Hs Hlo Hhi) as Hstep.
  cbv zeta in Hstep.
  assert (Hv : - max_speed self <= clamped_velocity self x0 v0 action
               <= max_speed self).
  { unfold clamped_velocity. apply np_clip_bounds. lra. }
  rewrite Hms in Hv.
  set (v' := clamped_velocity self x0 v0 action) in *.
  do 5 eexists. split; [exact Hstep|].
  split; [apply constructed_set_counter, constructed_set_state; exact Hc|].
  split; [reflexivity|]. split; [reflexivity|].
  split.
  - apply np_clip_bounds. lra.
  - apply Rabs_le. unfold np_clip, Rmin, Rmax.
    destruct (Rle_dec (x0 + v') (-1.2));
      destruct (Rle_dec _ (last (x self) 0)); lra.
Qed.

(** X14.  An episode cannot travel faster than [v_max]: from a state whose
    position is in [[x_min, x_max]], after [n] step calls with any integer
    actions the position is within [0.07 n] of where it started. *)
Theorem run_travel (self : MultiMountainsEnv) (actions : list Z)
    (x0 v0 : R) :
  constructed self -> state self = Some (x0, v0) ->
  -1.2 <= x0 <= last (x self) 0 ->
  exists outs self' xn vn,
    run self actions = Ok (outs, self') /\
    state self' = Some (xn, vn) /\
    -1.2 <= xn <= last (x self) 0 /\
    Rabs (xn - x0) <= 0.07 * INR (length actions).
Proof.
  revert self x0 v0.
  induction actions as [|a rest IH]; intros self x0 v0 Hc Hs Hx.
  - exists [], self, x0, v0. cbn [run length INR].
    repeat split; try assumption; try lra.
    replace (x0 - x0) with 0 by lra. rewrite Rabs_R0. lra.
  - destruct (step_move self a x0 v0 Hc Hs Hx)
      as (x1 & v1 & r & d & self1 & Hstep & Hc1 & Hs1 & Hx1 & Hb1 & Hd1).
    rewrite <- Hx1 in Hb1.
    destruct (IH self1 x1 v1 Hc1 Hs1 Hb1)
      as (outs & self' & xn & vn & Hrun & Hsn & Hbn & Hdn).
    eexists. exists self', xn, vn.
    cbn [run]. rewrite Hstep. cbn [bind]. rewrite Hrun. cbn [bind].
    split; [reflexivity|]. split; [exact Hsn|].
    rewrite Hx1 in Hbn. split; [exact Hbn|].
    change (length (a :: rest)) with (S (length rest)). rewrite S_INR.
    replace (xn - x0) with ((xn - x1) + (x1 - x0)) by lra.
    pose proof (Rabs_triang (xn - x1) (x1 - x0)). lra.
Qed.

Lemma run_travel_witness :
  exists self0,
    init_default level_curve [0; 30] = Ok self0 /\
    constructed (set_state self0 (0.2, 0)) /\
    state (set_state self0 (0.2, 0)) = Some (0.2, 0) /\
    -1.2 <= 0.2 <= last (x (set_state self0 (0.2, 0))) 0 /\
    exists outs self' xn vn,
      run (set_state self0 (0.2, 0)) [2; 2; 2]%Z = Ok (outs, self') /\
      state self' = Some (xn, vn) /\
      -1.2 <= xn <= last (x (set_state self0 (0.2, 0))) 0 /\
      Rabs (xn - 0.2) <= 0.07 * INR (length [2; 2; 2]%Z).
Proof.
  destruct (init_ok level_curve [0; 30] 500 0.0025 1e-3 1e-12) as [self0 H0];
    [discriminate|].
  pose proof (constructed_init _ _ _ _ _ _ _ H0) as Hc.
  pose proof (constructed_set_state self0 (0.2, 0) Hc) as Hc1.
  assert (Hb : -1.2 <= 0.2 <= last (x (set_state self0 (0.2, 0))) 0).
  { destruct (constructed_first_hill _ Hc1) as [rest Hx].
    destruct (constructed_terrain _ Hc1) as (_ & _ & _ & _ & _ & Hs & _).
    pose proof (sorted_all_le_last _ Hs) as Hall.
    rewrite Forall_forall in Hall.
    assert (0.5 <= last (x (set_state self0 (0.2, 0))) 0).
    { apply Hall. rewrite Hx. right; right; left; reflexivity. }
    lra. }
  exists self0. split; [exact H0|]. split; [exact Hc1|].
  split; [reflexivity|]. split; [exact Hb|].
  exact (run_travel (set_state self0 (0.2, 0)) [2; 2; 2]%Z 0.2 0
           Hc1 eq_refl Hb).
Defined.

End Travel.
